(** * VibeFI banking ticket classifier

    A shallow embedding of [src/classifier.js], of [analyzeTicketWithAI] and
    the indicator functions of [src/ai-helper.js] and of [src/validation.js],
    and the properties of the specification checked against it.

    JavaScript numbers are IEEE 754 binary64 values: they are modelled by
    Rocq's primitive [float], whose operations are the same binary64
    operations, so every score below is the value the program computes, bit
    for bit.  Strings are strings of ASCII characters.  Calls to the logger
    have no effect on any value and are left out. *)

From Stdlib Require Import Reals Lra.
From Stdlib Require Import ZArith Uint63 Floats List String Ascii Bool Lia.
Import ListNotations.
Set Warnings "-inexact-float".

(** ** The JavaScript primitives the program calls *)
Module JS.

(** *** Strings *)

(** [String.prototype.toLowerCase], on ASCII letters. *)
Definition lowerChar (c : ascii) : ascii :=
  let n := nat_of_ascii c in
  if (65 <=? n)%nat && (n <=? 90)%nat then ascii_of_nat (n + 32) else c.

Fixpoint toLowerCase (s : string) : string :=
  match s with
  | EmptyString => EmptyString
  | String c r => String (lowerChar c) (toLowerCase r)
  end.

(** [s.startsWith(p)] *)
Fixpoint startsWith (s p : string) : bool :=
  match p, s with
  | EmptyString, _ => true
  | String _ _, EmptyString => false
  | String a p', String b s' => Ascii.eqb a b && startsWith s' p'
  end.

(** [s.includes(p)]: [p] occurs in [s] as a substring. *)
Fixpoint includes (s p : string) : bool :=
  startsWith s p ||
  match s with
  | EmptyString => false
  | String _ r => includes r p
  end.

(** White space and line terminators of the ASCII range. *)
Definition isWhiteSpace (c : ascii) : bool :=
  let n := nat_of_ascii c in
  ((9 <=? n)%nat && (n <=? 13)%nat) || (n =? 32)%nat.

Fixpoint trimStart (s : string) : string :=
  match s with
  | EmptyString => EmptyString
  | String c r => if isWhiteSpace c then trimStart r else s
  end.

Fixpoint trimEnd (s : string) : string :=
  match s with
  | EmptyString => EmptyString
  | String c r =>
      match trimEnd r with
      | EmptyString => if isWhiteSpace c then EmptyString else String c EmptyString
      | r' => String c r'
      end
  end.

(** [String.prototype.trim] *)
Definition trim (s : string) : string := trimEnd (trimStart s).

(** *** Arrays *)

(** [xs.includes(x)] on an array of strings. *)
Definition arrayIncludes (xs : list string) (x : string) : bool :=
  existsb (String.eqb x) xs.

(** [xs.unshift(x)], [xs.push(x)], [xs.splice(i, 0, x)], [xs.slice(0, n)],
    as the array after the call. *)
Definition unshift {A} (xs : list A) (x : A) : list A := x :: xs.
Definition push {A} (xs : list A) (x : A) : list A := xs ++ [x].
Definition splice_insert {A} (xs : list A) (i : nat) (x : A) : list A :=
  firstn i xs ++ x :: skipn i xs.
Definition slice_from_0 {A} (xs : list A) (n : nat) : list A := firstn n xs.

(** *** Numbers *)

(** The number that an array length or an integer literal denotes. *)
Definition ofZ (n : Z) : float := of_uint63 (Uint63.of_Z n).
Definition ofNat (n : nat) : float := ofZ (Z.of_nat n).

(** [a > b] and [a === b] on numbers. *)
Definition gt (a b : float) : bool := (b <? a)%float.
Definition strictEq (a b : float) : bool := (a =? b)%float.

(** [Math.max(a, b)]: NaN when an argument is NaN; [+0] is above [-0]. *)
Definition Math_max (a b : float) : float :=
  if PrimFloat.is_nan a || PrimFloat.is_nan b then nan
  else if (a <? b)%float then b
  else if (b <? a)%float then a
  else if PrimFloat.get_sign a then b else a.

(** [Math.min(a, b)]: NaN when an argument is NaN; [-0] is below [+0]. *)
Definition Math_min (a b : float) : float :=
  if PrimFloat.is_nan a || PrimFloat.is_nan b then nan
  else if (a <? b)%float then a
  else if (b <? a)%float then b
  else if PrimFloat.get_sign a then a else b.

(** [Math.round(x)]: the integer [floor(x + 1/2)], computed exactly; a
    value that rounds to zero keeps the sign of [x]; zeros, infinities,
    NaN and numbers that are integers already are returned unchanged. *)
Definition Math_round (x : float) : float :=
  match Prim2SF x with
  | S754_finite s m e =>
      if (0 <=? e)%Z then x
      else
        let k := (- e)%Z in
        let n := (((if s then Z.neg m else Z.pos m) * 2 + 2 ^ k) / 2 ^ (k + 1))%Z in
        if (n =? 0)%Z then (if s then PrimFloat.neg_zero else PrimFloat.zero)
        else if (0 <? n)%Z then ofZ n
        else (- ofZ (- n))%float
  | _ => x
  end.

(** [ToBoolean] of a number: false on [+0], [-0] and NaN. *)
Definition truthyNumber (x : float) : bool := negb (PrimFloat.is_zero x || PrimFloat.is_nan x).

(** [ToBoolean] of a string: false on the empty string. *)
Definition truthyString (s : string) : bool := negb (String.eqb s EmptyString).

(** [StringToNumber], the coercion of a string to a number, by the grammar
    of [StringNumericLiteral]. *)

(** The value of a character as a digit of a radix, when it is one:
    [0] to [9], then the letters [a] to [z] in either case. *)
Definition digitValue (radix : Z) (c : ascii) : option Z :=
  let n := Z.of_nat (nat_of_ascii c) in
  let d :=
    if (48 <=? n)%Z && (n <=? 57)%Z then (n - 48)%Z
    else if (97 <=? n)%Z && (n <=? 122)%Z then (n - 87)%Z
    else if (65 <=? n)%Z && (n <=? 90)%Z then (n - 55)%Z
    else radix in
  if (d <? radix)%Z then Some d else None.

(** The digits at the start of a text: the value they add to [acc], their
    number, and the text behind them. *)
Fixpoint leadingDigits (radix : Z) (s : string) (acc : Z) (count : nat)
  : Z * nat * string :=
  match s with
  | EmptyString => (acc, count, s)
  | String c r =>
      match digitValue radix c with
      | Some d => leadingDigits radix r (radix * acc + d)%Z (S count)
      | None => (acc, count, s)
      end
  end.

(** The number nearest to the quotient of two positive integers, ties to
    even: the division of binary64 on the two integers as they stand.  A
    zero keeps the sign of the literal. *)
Definition nearestNumber (negative : bool) (numerator denominator : Z) : float :=
  match numerator, denominator with
  | Zpos n, Zpos d =>
      SF2Prim (SFdiv prec emax (S754_finite negative n 0) (S754_finite false d 0))
  | _, _ => if negative then PrimFloat.neg_zero else PrimFloat.zero
  end.

(** [NonDecimalIntegerLiteral]: [0x], [0o] or [0b], in either case, and one
    digit of the radix at least, to the end of the text. *)
Definition NonDecimalIntegerLiteral (s : string) : option Z :=
  match s with
  | String "0" (String p r) =>
      let radix :=
        if Ascii.eqb p "x" || Ascii.eqb p "X" then Some 16%Z
        else if Ascii.eqb p "o" || Ascii.eqb p "O" then Some 8%Z
        else if Ascii.eqb p "b" || Ascii.eqb p "B" then Some 2%Z
        else None in
      match radix with
      | Some radix =>
          match leadingDigits radix r 0 0 with
          | (n, S _, EmptyString) => Some n
          | _ => None
          end
      | None => None
      end
  | _ => None
  end.

(** An optional sign: whether it is [-], and the text behind it. *)
Definition optionalSign (s : string) : bool * string :=
  match s with
  | String "+" r => (false, r)
  | String "-" r => (true, r)
  | _ => (false, s)
  end.

(** [ExponentPart], when there is one: the exponent, [None] when the text
    is not an exponent part to its end. *)
Definition ExponentPart (s : string) : option Z :=
  match s with
  | EmptyString => Some 0%Z
  | String c r =>
      if Ascii.eqb c "e" || Ascii.eqb c "E" then
        let '(negative, r) := optionalSign r in
        match leadingDigits 10 r 0 0 with
        | (e, S _, EmptyString) => Some (if negative then (- e)%Z else e)
        | _ => None
        end
      else None
  end.

(** The mathematical value of a [StrUnsignedDecimalLiteral]: infinity, or
    an integer times a power of ten. *)
Inductive MV : Type :=
| MVInfinity
| MVDecimal (mantissa exponent : Z).

(** [StrUnsignedDecimalLiteral]: [Infinity], or digits with an optional
    fraction and an optional exponent part, with a digit before or behind
    the point. *)
Definition StrUnsignedDecimalLiteral (s : string) : option MV :=
  if String.eqb s "Infinity" then Some MVInfinity
  else
    let '(whole, n, r) := leadingDigits 10 s 0 0 in
    let '(mantissa, f, r) :=
      match r with
      | String "." r => leadingDigits 10 r whole 0
      | _ => (whole, 0%nat, r)
      end in
    match (n + f)%nat, ExponentPart r with
    | S _, Some e => Some (MVDecimal mantissa (e - Z.of_nat f))
    | _, _ => None
    end.

(** White space around the literal is dropped; an empty text is [+0]; a
    text that is no [StringNumericLiteral] is NaN; a radix-prefixed literal
    takes no sign; the value of a literal is rounded to the nearest number,
    ties to even, on all of its digits. *)
Definition StringToNumber (s : string) : float :=
  let t := trim s in
  if String.eqb t EmptyString then PrimFloat.zero
  else
    match NonDecimalIntegerLiteral t with
    | Some n => nearestNumber false n 1
    | None =>
        let '(negative, r) := optionalSign t in
        match StrUnsignedDecimalLiteral r with
        | Some MVInfinity => if negative then neg_infinity else infinity
        | Some (MVDecimal m e) =>
            if (0 <=? e)%Z then nearestNumber negative (m * 10 ^ e) 1
            else nearestNumber negative m (10 ^ (- e))
        | None => nan
        end
    end.

(** *** Exceptions *)

(** An exception value: the error's constructor name and its message. *)
Record Exception := mkException { name : string; message : string }.

Definition Error (msg : string) : Exception := mkException "Error" msg.
Definition TypeError (msg : string) : Exception := mkException "TypeError" msg.
Definition SyntaxError (msg : string) : Exception := mkException "SyntaxError" msg.

(** How a call (or an awaited promise) ends. *)
Inductive outcome (A : Type) : Type :=
| Returns (a : A)
| Throws (e : Exception).
Arguments Returns {A} a.
Arguments Throws {A} e.

Definition bind {A B} (m : outcome A) (k : A -> outcome B) : outcome B :=
  match m with
  | Returns a => k a
  | Throws e => Throws e
  end.

(** [try { body } catch (e) { handler }] *)
Definition try_catch {A} (body : outcome A) (handler : Exception -> outcome A) : outcome A :=
  match body with
  | Returns a => Returns a
  | Throws e => handler e
  end.

End JS.

Declare Scope js_scope.
Delimit Scope js_scope with js.
Notation "x <- m ;; k" := (JS.bind m (fun x => k))
  (at level 61, m at next level, right associativity) : js_scope.
Notation "m ;;; k" := (JS.bind m (fun _ => k))
  (at level 61, right associativity) : js_scope.

Import JS.
Open Scope string_scope.

(** ** src/classifier.js *)

(** The two classifications, the keys of [CLASSIFICATION_RULES] and the two
    values of [decision]. *)
Inductive Category : Type :=
| ai_code_remediation
| vibe_coded_troubleshooting.

Definition Category_eqb (a b : Category) : bool :=
  match a, b with
  | ai_code_remediation, ai_code_remediation => true
  | vibe_coded_troubleshooting, vibe_coded_troubleshooting => true
  | _, _ => false
  end.

(** The string that names a classification in the program. *)
Definition categoryName (c : Category) : string :=
  match c with
  | ai_code_remediation => "ai_code_remediation"
  | vibe_coded_troubleshooting => "vibe_coded_troubleshooting"
  end.

Record Rules : Type := mkRules {
  keywords : list string;
  channels : list string;
  severities : list string
}.

Definition CLASSIFICATION_RULES (classification : Category) : Rules :=
  match classification with
  | ai_code_remediation =>
      {| keywords :=
           [ "api"; "timeout"; "error"; "bug"; "crash"; "exception"; "database";
             "integration"; "authentication"; "authorization"; "performance";
             "memory leak"; "sql"; "connection"; "server error"; "code";
             "deployment"; "build"; "compilation" ];
         channels := [ "api"; "mobile_app"; "web_app"; "integration" ];
         severities := [ "high"; "critical" ] |}
  | vibe_coded_troubleshooting =>
      {| keywords :=
           [ "account"; "balance"; "transaction"; "transfer"; "payment";
             "statement"; "card"; "pin"; "password"; "profile"; "settings";
             "notification"; "email"; "sms"; "verification"; "kyc";
             "onboarding"; "support"; "help"; "guidance" ];
         channels := [ "phone"; "email"; "chat"; "branch" ];
         severities := [ "low"; "medium" ] |}
  end.

(** A ticket: the three fields the classifier reads. *)
Record Ticket : Type := mkTicket {
  channel : string;
  severity : string;
  summary : string
}.

Definition calculateRuleBasedScore (ticket : Ticket) (classification : Category) : float :=
  let rules := CLASSIFICATION_RULES classification in
  let score := 0%float in
  let maxScore := 0%float in
  (* Keyword matching (40% weight) *)
  let summaryLower := toLowerCase (summary ticket) in
  let keywordMatches :=
    List.length (filter (fun keyword => includes summaryLower keyword) (keywords rules)) in
  let score :=
    (score + (ofNat keywordMatches / ofNat (List.length (keywords rules))) * 0.4)%float in
  let maxScore := (maxScore + 0.4)%float in
  (* Channel matching (30% weight) *)
  let score :=
    if arrayIncludes (channels rules) (channel ticket) then (score + 0.3)%float else score in
  let maxScore := (maxScore + 0.3)%float in
  (* Severity matching (30% weight) *)
  let score :=
    if arrayIncludes (severities rules) (severity ticket) then (score + 0.3)%float else score in
  let maxScore := (maxScore + 0.3)%float in
  if gt maxScore 0 then (score / maxScore)%float else 0%float.

Definition baseActions (decision : Category) : list string :=
  match decision with
  | ai_code_remediation =>
      [ "Analyze error logs and stack traces";
        "Identify root cause in codebase";
        "Generate code patch or fix";
        "Run automated tests on fix";
        "Deploy to staging environment";
        "Monitor for regression issues" ]
  | vibe_coded_troubleshooting =>
      [ "Review customer account details";
        "Execute diagnostic workflow";
        "Apply standard troubleshooting steps";
        "Update customer communication";
        "Document resolution steps";
        "Schedule follow-up if needed" ]
  end.

Definition generateActionChecklist (decision : Category) (ticket : Ticket) : list string :=
  let actions := baseActions decision in
  let actions :=
    if String.eqb (severity ticket) "critical" then
      push (unshift actions "Escalate to senior team immediately") "Prepare incident report"
    else if String.eqb (severity ticket) "high" then
      push actions "Monitor resolution progress closely"
    else actions in
  let actions :=
    if String.eqb (channel ticket) "mobile_app" && Category_eqb decision ai_code_remediation then
      splice_insert actions 3 "Test fix on multiple mobile platforms"
    else actions in
  slice_from_0 actions 6.

(** ** src/ai-helper.js: [analyzeTicketWithAI] *)

(** What the chat completion resolves to: [completion.choices[0]?.message?.content]
    reads the first choice, its message and the message's content, each of
    which may be missing. *)
Record Message : Type := mkMessage { content : option string }.
Record Choice : Type := mkChoice { message_of : option Message }.
Record Completion : Type := mkCompletion { choices : list Choice }.

(** A JSON scalar, as [JSON.parse] produces it. *)
Inductive Scalar : Type :=
| SNull
| SBool (b : bool)
| SNumber (f : float)
| SString (s : string).

(** The members of a parsed JSON object that the helper reads, [None] when
    the member is absent ([undefined]).  The recommendation and the reasoning
    are strings when present, as the prompt asks; the confidence is any
    scalar, since the helper hands it to [Math.min] unchecked. *)
Record Members : Type := mkMembers {
  member_recommendation : option string;
  member_confidence : option Scalar;
  member_reasoning : option string
}.

(** The value [JSON.parse] returns for the reply. *)
Inductive Json : Type :=
| JScalar (v : Scalar)
| JArray
| JObject (o : Members).

(** [ToBoolean] and [ToNumber] of a scalar. *)
Definition truthyScalar (v : Scalar) : bool :=
  match v with
  | SNull => false
  | SBool b => b
  | SNumber f => truthyNumber f
  | SString s => truthyString s
  end.

Definition ToNumber (v : Scalar) : float :=
  match v with
  | SNull => PrimFloat.zero
  | SBool b => if b then PrimFloat.one else PrimFloat.zero
  | SNumber f => f
  | SString s => StringToNumber s
  end.

(** The object the helper returns on success, as the classifier reads it. *)
Record Analysis : Type := mkAnalysis {
  recommendation : string;
  confidence : float;
  reasoning : string
}.

(** What the helper meets outside the program: the credential in the process
    environment, how the awaited [openai.chat.completions.create] ends for a
    given user message (it is rejected on a network failure, a timeout or an
    API error), and the host's [JSON.parse]. *)
Record World : Type := mkWorld {
  OPENAI_API_KEY : option string;
  create : string -> outcome Completion;
  JSON_parse : string -> outcome Json
}.

(** [!process.env.OPENAI_API_KEY || process.env.OPENAI_API_KEY === 'demo-key'] *)
Definition noApiKey (w : World) : bool :=
  match OPENAI_API_KEY w with
  | None => true
  | Some k => negb (truthyString k) || String.eqb k "demo-key"
  end.

Definition newline : string := String (ascii_of_nat 10) EmptyString.

Definition ticketContext (ticket : Ticket) : string :=
  trim (newline ++ "Channel: " ++ channel ticket ++ newline
        ++ "Severity: " ++ severity ticket ++ "  " ++ newline
        ++ "Summary: " ++ summary ticket ++ newline ++ "    ").

(** [analysis.recommendation], [analysis.confidence], [analysis.reasoning] all
    read: a TypeError on [null], [undefined] members on any other value that
    is not an object. *)
Definition readMembers (analysis : Json) : outcome Members :=
  match analysis with
  | JScalar SNull =>
      Throws (TypeError "Cannot read properties of null (reading 'recommendation')")
  | JScalar _ | JArray => Returns (mkMembers None None None)
  | JObject o => Returns o
  end.

Definition truthyMember {A} (truthy : A -> bool) (m : option A) : bool :=
  match m with
  | None => false
  | Some v => truthy v
  end.

(** [completion.choices[0]?.message?.content] *)
Definition firstContent (completion : Completion) : option string :=
  match nth_error (choices completion) 0 with
  | Some choice =>
      match message_of choice with
      | Some m => content m
      | None => None
      end
  | None => None
  end.

(** The body of the [try] block. *)
Definition analyzeBody (w : World) (ticket : Ticket) : outcome (option Analysis) :=
  (completion <- create w (ticketContext ticket) ;;
   let response := firstContent completion in
   match response with
   | None => Throws (Error "Empty response from AI")
   | Some response =>
       if negb (truthyString response) then Throws (Error "Empty response from AI")
       else
         (* Parse JSON response *)
         analysis <- JSON_parse w response ;;
         (* Validate response structure *)
         o <- readMembers analysis ;;
         if negb (truthyMember truthyString (member_recommendation o))
            || negb (truthyMember truthyScalar (member_confidence o))
            || negb (truthyMember truthyString (member_reasoning o))
         then Throws (Error "Invalid AI response structure")
         else
           match member_recommendation o, member_confidence o, member_reasoning o with
           | Some rec, Some conf, Some rsn =>
               (* Ensure confidence is within valid range *)
               Returns (Some {| recommendation := rec;
                                confidence := Math_max 0 (Math_min 1 (ToNumber conf));
                                reasoning := rsn |})
           | _, _, _ => Throws (Error "Invalid AI response structure")
           end
   end)%js.

Definition analyzeTicketWithAI (w : World) (ticket : Ticket) : outcome (option Analysis) :=
  (* Skip AI analysis if no API key provided (for demo/testing) *)
  if noApiKey w then Returns None
  else
    try_catch (analyzeBody w ticket)
      (fun error =>
         (* Don't throw - let classifier fall back to rule-based only *)
         Returns None).

(** ** src/classifier.js: [classifyTicket] *)

Record RuleScores : Type := mkRuleScores {
  ai_score : float;
  vibe_score : float
}.

Record Metadata : Type := mkMetadata {
  model_version : string;
  rule_scores : RuleScores;
  ai_analysis_used : bool
}.

Record Result : Type := mkResult {
  decision : Category;
  result_reasoning : string;
  result_confidence : float;
  next_actions : list string;
  metadata : Metadata
}.

(** The inner [try]: the variable [aiAnalysis] after the statement.  It is
    assigned when the awaited call returns; the debug line that follows reads
    [aiAnalysis.recommendation], which raises a TypeError on [null]; the
    [catch] absorbs that error and any error of the call, and the variable
    keeps what it holds. *)
Definition innerTry (w : World) (ticket : Ticket) : option Analysis * outcome unit :=
  match analyzeTicketWithAI w ticket with
  | Throws aiError => (None, Throws aiError)
  | Returns None =>
      (None, Throws (TypeError "Cannot read properties of null (reading 'recommendation')"))
  | Returns (Some a) => (Some a, Returns tt)
  end.

(** Combine rule-based and AI analysis: [finalDecision], [confidence] and
    [reasoning] as they stand before the minimum-confidence line. *)
Definition combine (aiScore vibeScore : float) (aiAnalysis : option Analysis)
  : Category * float * string :=
  match aiAnalysis with
  | Some aiAnalysis =>
      (* Weighted combination: 60% AI, 40% rules *)
      let aiWeight := 0.6%float in
      let ruleWeight := 0.4%float in
      let aiDecisionScore :=
        if String.eqb (recommendation aiAnalysis) "ai_code_remediation"
        then confidence aiAnalysis
        else (1 - confidence aiAnalysis)%float in
      let combinedAiScore := ((aiDecisionScore * aiWeight) + (aiScore * ruleWeight))%float in
      let combinedVibeScore :=
        (((1 - aiDecisionScore) * aiWeight) + (vibeScore * ruleWeight))%float in
      if gt combinedAiScore combinedVibeScore then
        (ai_code_remediation, combinedAiScore,
         "Technical issue detected: " ++ reasoning aiAnalysis)
      else
        (vibe_coded_troubleshooting, combinedVibeScore,
         "Operational issue requiring workflow: " ++ reasoning aiAnalysis)
  | None =>
      (* Fallback to rule-based only *)
      if gt aiScore vibeScore then
        (ai_code_remediation, aiScore,
         "Technical indicators suggest code-level intervention needed")
      else
        (vibe_coded_troubleshooting, vibeScore,
         "Operational indicators suggest workflow-based resolution")
  end.

Definition classifyTicket (w : World) (ticket : Ticket) : outcome Result :=
  try_catch
    ((* Calculate rule-based scores *)
     let aiScore := calculateRuleBasedScore ticket ai_code_remediation in
     let vibeScore := calculateRuleBasedScore ticket vibe_coded_troubleshooting in
     (* Get AI analysis for enhanced decision making *)
     let aiAnalysis := fst (innerTry w ticket) in
     let '(finalDecision, confidence, reasoning) := combine aiScore vibeScore aiAnalysis in
     (* Ensure minimum confidence threshold *)
     let confidence := Math_max confidence 0.5 in
     Returns
       {| decision := finalDecision;
          result_reasoning := reasoning;
          result_confidence := (Math_round (confidence * 100) / 100)%float;
          next_actions := generateActionChecklist finalDecision ticket;
          metadata :=
            {| model_version := "1.0.0";
               rule_scores := {| ai_score := aiScore; vibe_score := vibeScore |};
               ai_analysis_used := match aiAnalysis with Some _ => true | None => false end |} |})
    (fun error => Throws (Error ("Classification failed: " ++ message error))).

(** ** src/validation.js *)

(** A ticket as [ticketSchema] reads it: the three required fields and the
    optional ones; a field that the object does not have is [None]. *)
Record TicketData : Type := mkTicketData {
  required : Ticket;
  ticket_id : option string;
  customer_id : option string;
  timestamp : option string;
  tags : option (list string);
  priority : option string
}.

(** The object that has the three required fields and no other. *)
Definition onlyRequired (ticket : Ticket) : TicketData :=
  {| required := ticket; ticket_id := None; customer_id := None;
     timestamp := None; tags := None; priority := None |}.

Definition validChannels : list string :=
  [ "mobile_app"; "web_app"; "api"; "phone"; "email"; "chat"; "branch"; "integration" ].

Definition validSeverities : list string := [ "low"; "medium"; "high"; "critical" ].

Definition validPriorities : list string := [ "p1"; "p2"; "p3"; "p4" ].

(** [Joi.string()]: a string, which is not the empty one. *)
Definition Joi_string (s : string) : bool := negb (String.eqb s EmptyString).

(** [.optional()]: the field is absent, or it passes its rule. *)
Definition Joi_optional {A} (rule : A -> bool) (field : option A) : bool :=
  match field with
  | Some value => rule value
  | None => true
  end.

(** [ticketSchema]: whether an object passes every rule of the schema.
    Which texts [Joi.date().iso()] reads as a date is the library's matter:
    that rule is the parameter [isoDate]. *)
Definition ticketSchema (isoDate : string -> bool) (data : TicketData) : bool :=
  arrayIncludes validChannels (channel (required data))
  && arrayIncludes validSeverities (severity (required data))
  && (10 <=? String.length (summary (required data)))%nat
  && (String.length (summary (required data)) <=? 1000)%nat
  (* Optional fields for enhanced classification *)
  && Joi_optional Joi_string (ticket_id data)
  && Joi_optional Joi_string (customer_id data)
  && Joi_optional isoDate (timestamp data)
  && Joi_optional (forallb Joi_string) (tags data)
  && Joi_optional (arrayIncludes validPriorities) (priority data).

(** Validate ticket input data: whether the validation reports no error. *)
Definition validateTicketInput (isoDate : string -> bool) (data : TicketData) : bool :=
  ticketSchema isoDate data.

(** Sanitize and normalize ticket data.  [now] is the text that
    [new Date().toISOString()] gives at the call. *)
Definition sanitizeTicket (now : string) (ticket : TicketData) : TicketData :=
  {| required :=
       {| channel := trim (toLowerCase (channel (required ticket)));
          severity := trim (toLowerCase (severity (required ticket)));
          summary := trim (summary (required ticket)) |};
     ticket_id := ticket_id ticket;
     customer_id := customer_id ticket;
     (* Normalize optional fields *)
     tags :=
       Some match tags ticket with
            | Some tags => map (fun tag => trim (toLowerCase tag)) tags
            | None => []
            end;
     timestamp :=
       Some match timestamp ticket with
            | Some t => if truthyString t then t else now
            | None => now
            end;
     priority := priority ticket |}.

(** [responseSchema], on the fields a result of [classifyTicket] carries: the
    decision is one of the two classifications by its type and the metadata
    with its model version is always present. *)
Definition validateResponse (response : Result) : bool :=
  (10 <=? String.length (result_reasoning response))%nat
  && (0 <=? result_confidence response)%float
  && (result_confidence response <=? 1)%float
  && forallb (fun action => (5 <=? String.length action)%nat) (next_actions response)
  && (3 <=? List.length (next_actions response))%nat
  && (List.length (next_actions response) <=? 10)%nat.

(** ** Definitions used to state the properties *)

(** The arithmetic of [calculateRuleBasedScore] as a function of the size of
    the keyword list, the number of keywords that matched and the two
    membership tests. *)
Definition ruleScore (total matched : nat) (channelMatch severityMatch : bool) : float :=
  let score := (0 + (ofNat matched / ofNat total) * 0.4)%float in
  let score := if channelMatch then (score + 0.3)%float else score in
  let score := if severityMatch then (score + 0.3)%float else score in
  if gt (0 + 0.4 + 0.3 + 0.3)%float 0 then (score / (0 + 0.4 + 0.3 + 0.3))%float else 0%float.

(** The number of keywords of a classification that occur in the summary,
    letter case ignored. *)
Definition matchedKeywords (ticket : Ticket) (c : Category) : nat :=
  List.length (filter (fun keyword => includes (toLowerCase (summary ticket)) keyword)
                      (keywords (CLASSIFICATION_RULES c))).

Definition totalKeywords (c : Category) : nat :=
  List.length (keywords (CLASSIFICATION_RULES c)).

Definition channelPreferred (ticket : Ticket) (c : Category) : bool :=
  arrayIncludes (channels (CLASSIFICATION_RULES c)) (channel ticket).

Definition severityPreferred (ticket : Ticket) (c : Category) : bool :=
  arrayIncludes (severities (CLASSIFICATION_RULES c)) (severity ticket).

(** *** The rule score in the words of the specification *)

Definition isUpperCase (c : ascii) : bool :=
  let n := nat_of_ascii c in (65 <=? n)%nat && (n <=? 90)%nat.

(** Two characters that are equal when letter case is ignored: the same
    character, or a capital letter and its small letter, which stands 32
    places above it. *)
Definition sameLetter (a b : ascii) : bool :=
  Ascii.eqb a b
  || (isUpperCase a && (nat_of_ascii b =? nat_of_ascii a + 32)%nat)
  || (isUpperCase b && (nat_of_ascii a =? nat_of_ascii b + 32)%nat).

(** Two texts of one length whose characters are equal in that sense. *)
Fixpoint sameText (s t : string) : bool :=
  match s, t with
  | EmptyString, EmptyString => true
  | String a s', String b t' => sameLetter a b && sameText s' t'
  | _, _ => false
  end.

(** A keyword appears in a text as a substring, case-insensitively: a part
    of the text is the keyword but for letter case. *)
Definition appearsIn (keyword text : string) : Prop :=
  exists before part after,
    text = before ++ part ++ after /\ sameText keyword part = true.

(** The number of the keywords of a list that appear in a text. *)
Inductive keywordCount (text : string) : list string -> nat -> Prop :=
| count_none : keywordCount text [] 0
| count_appears keyword rest n :
    appearsIn keyword text -> keywordCount text rest n ->
    keywordCount text (keyword :: rest) (S n)
| count_absent keyword rest n :
    ~ appearsIn keyword text -> keywordCount text rest n ->
    keywordCount text (keyword :: rest) n.

(** 0.3 when a value is in a set, 0 otherwise. *)
Definition points (value : string) (set : list string) : float :=
  if in_dec String.string_dec value set then 0.3%float else 0%float.

(** The rule score: the matched fraction of the keywords times 0.4, plus
    0.3 for a preferred channel, plus 0.3 for a preferred severity. *)
Definition specRuleScore (ticket : Ticket) (c : Category) (matched : nat) : float :=
  ((ofNat matched / ofNat (List.length (keywords (CLASSIFICATION_RULES c)))) * 0.4
   + points (channel ticket) (channels (CLASSIFICATION_RULES c))
   + points (severity ticket) (severities (CLASSIFICATION_RULES c)))%float.

(** Every character. *)
Definition allAscii : list ascii := map ascii_of_nat (seq 0 256).

(** The external score in the words of the specification: the confidence for
    the recommended classification, one minus the confidence for the other. *)
Definition specExternalScore (a : Analysis) (c : Category) : float :=
  if String.eqb (recommendation a) (categoryName c) then confidence a
  else (1 - confidence a)%float.

(** The combined score in the words of the specification. *)
Definition specCombined (a : Analysis) (rule : Category -> float) (c : Category) : float :=
  (0.6 * specExternalScore a c + 0.4 * rule c)%float.

(** The external scores as the program computes them: the technical one from
    the recommendation, the operational one as one minus the technical one. *)
Definition externalScore (a : Analysis) (c : Category) : float :=
  let technical :=
    if String.eqb (recommendation a) "ai_code_remediation" then confidence a
    else (1 - confidence a)%float in
  match c with
  | ai_code_remediation => technical
  | vibe_coded_troubleshooting => (1 - technical)%float
  end.

Definition combinedScore (a : Analysis) (rule : Category -> float) (c : Category) : float :=
  (0.6 * externalScore a c + 0.4 * rule c)%float.

(** The framing that opens the reasoning when an assessment is used. *)
Definition framing (c : Category) : string :=
  match c with
  | ai_code_remediation => "Technical issue detected: "
  | vibe_coded_troubleshooting => "Operational issue requiring workflow: "
  end.

(** The rule scores as a function of the classification. *)
Definition scoresBy (aiScore vibeScore : float) (c : Category) : float :=
  match c with
  | ai_code_remediation => aiScore
  | vibe_coded_troubleshooting => vibeScore
  end.

(** The two scores that the deciding [if] compares: the combined scores when
    an assessment is present, the rule scores otherwise. *)
Definition comparedScores (aiScore vibeScore : float) (aiAnalysis : option Analysis)
  : float * float :=
  match aiAnalysis with
  | Some a =>
      (combinedScore a (scoresBy aiScore vibeScore) ai_code_remediation,
       combinedScore a (scoresBy aiScore vibeScore) vibe_coded_troubleshooting)
  | None => (aiScore, vibeScore)
  end.

(** The final confidence from the winning score: the floor at 0.5, then two
    decimal places. *)
Definition floorAndRound (score : float) : float :=
  (Math_round (Math_max score 0.5 * 100) / 100)%float.

(** A text can say that the decision rests on the rules alone, with no
    external input, only if it speaks of rules, of what is external, of an
    assessment or an analysis, of a fallback, or says "only" or "without". *)
Definition basisWords : list string :=
  [ "rule"; "external"; "assessment"; "analysis"; "fallback"; "only"; "without" ].

Definition mentionsRules (text : string) : bool :=
  existsb (includes (toLowerCase text)) basisWords.

(** An action is an incident-report action when it names an incident. *)
Definition isIncidentReport (action : string) : bool :=
  includes (toLowerCase action) "incident".

(** The rule scores of a ticket, by classification. *)
Definition ruleScores (ticket : Ticket) (c : Category) : float :=
  calculateRuleBasedScore ticket c.

(** [lo <= x <= hi] on numbers; false when [x] is NaN. *)
Definition between (lo hi x : float) : bool := (lo <=? x)%float && (x <=? hi)%float.

(** Every input of the arithmetic of [calculateRuleBasedScore] for a
    classification: a number of matched keywords up to the size of the
    keyword list, and the two membership tests. *)
Definition scoreInputs (c : Category) : list (nat * bool * bool) :=
  flat_map (fun k => [ (k, true, true); (k, true, false); (k, false, true); (k, false, false) ])
           (seq 0 (S (totalKeywords c))).

Definition scoreOf (c : Category) (i : nat * bool * bool) : float :=
  let '(k, ch, sev) := i in ruleScore (totalKeywords c) k ch sev.

(** The formula of the specification on the same inputs. *)
Definition specFormula (c : Category) (i : nat * bool * bool) : float :=
  let '(k, ch, sev) := i in
  ((ofNat k / ofNat (totalKeywords c)) * 0.4
   + (if ch then 0.3 else 0)
   + (if sev then 0.3 else 0))%float.

(** The inputs of a ticket. *)
Definition inputsOf (ticket : Ticket) (c : Category) : nat * bool * bool :=
  (matchedKeywords ticket c, channelPreferred ticket c, severityPreferred ticket c).

(** The assessment the classifier goes on with: the variable [aiAnalysis]
    after the inner [try]. *)
Definition assessment (w : World) (ticket : Ticket) : option Analysis :=
  fst (innerTry w ticket).

(** The winner of a comparison that is strict for the technical side. *)
Definition winner (technical operational : float) : Category :=
  if gt technical operational then ai_code_remediation else vibe_coded_troubleshooting.

(** The reasoning of the fallback branch. *)
Definition fallbackReasoning (c : Category) : string :=
  match c with
  | ai_code_remediation => "Technical indicators suggest code-level intervention needed"
  | vibe_coded_troubleshooting => "Operational indicators suggest workflow-based resolution"
  end.

(** The ways the helper fails to obtain an assessment: no credential, a
    rejected call (network failure, timeout), an empty reply, a reply that is
    not JSON, and a payload that is incomplete. *)
Definition incomplete (analysis : Json) : bool :=
  match analysis with
  | JObject o =>
      negb (truthyMember truthyString (member_recommendation o))
      || negb (truthyMember truthyScalar (member_confidence o))
      || negb (truthyMember truthyString (member_reasoning o))
  | _ => true
  end.

Inductive AdapterFailure (w : World) (ticket : Ticket) : Prop :=
| NoCredential :
    noApiKey w = true -> AdapterFailure w ticket
| CallRejected (e : Exception) :
    create w (ticketContext ticket) = Throws e -> AdapterFailure w ticket
| EmptyReply (completion : Completion) :
    create w (ticketContext ticket) = Returns completion ->
    truthyMember truthyString (firstContent completion) = false ->
    AdapterFailure w ticket
| NotJson (completion : Completion) (response : string) (e : Exception) :
    create w (ticketContext ticket) = Returns completion ->
    firstContent completion = Some response ->
    JSON_parse w response = Throws e ->
    AdapterFailure w ticket
| IncompletePayload (completion : Completion) (response : string) (analysis : Json) :
    create w (ticketContext ticket) = Returns completion ->
    firstContent completion = Some response ->
    JSON_parse w response = Returns analysis ->
    incomplete analysis = true ->
    AdapterFailure w ticket.

(** *** The inputs the properties are evaluated on *)

(** A process without a credential. *)
Definition noCredential : World :=
  {| OPENAI_API_KEY := None;
     create := fun _ => Throws (Error "Connection error.");
     JSON_parse := fun _ => Throws (SyntaxError "Unexpected end of JSON input") |}.

(** A process with a credential whose service replies with the text
    [response], which [JSON.parse] reads as [analysis]. *)
Definition replying (response : string) (analysis : Json) : World :=
  {| OPENAI_API_KEY := Some "sk-live";
     create := fun _ => Returns (mkCompletion [ mkChoice (Some (mkMessage (Some response))) ]);
     JSON_parse := fun text =>
       if String.eqb text response then Returns analysis
       else Throws (SyntaxError "Unexpected token") |}.

Definition quote : string := String (ascii_of_nat 34) EmptyString.

(** The text of a JSON object with the three members, the confidence given
    by its JSON text. *)
Definition replyText (rec conf rsn : string) : string :=
  "{" ++ quote ++ "recommendation" ++ quote ++ ":" ++ quote ++ rec ++ quote ++ ","
      ++ quote ++ "confidence" ++ quote ++ ":" ++ conf ++ ","
      ++ quote ++ "reasoning" ++ quote ++ ":" ++ quote ++ rsn ++ quote ++ "}".

(** The service recommends the operational path with confidence 0.46. *)
Definition operationalReply : World :=
  replying (replyText "vibe_coded_troubleshooting" "0.46" "Account question")
           (JObject {| member_recommendation := Some "vibe_coded_troubleshooting";
                       member_confidence := Some (SNumber 0.46);
                       member_reasoning := Some "Account question" |}).


(** The service gives its confidence as a word: the JSON string "high". *)
Definition wordConfidenceReply : World :=
  replying (replyText "ai_code_remediation" (quote ++ "high" ++ quote) "Database errors")
           (JObject {| member_recommendation := Some "ai_code_remediation";
                       member_confidence := Some (SString "high");
                       member_reasoning := Some "Database errors" |}).

(** End-to-end scenario 2 of the specification. *)
Definition scenario2 : Ticket :=
  {| channel := "phone"; severity := "medium";
     summary := "Customer needs help with account balance verification and password reset" |}.

(** End-to-end scenario 3 of the specification. *)
Definition scenario3 : Ticket :=
  {| channel := "api"; severity := "critical";
     summary := "System down, database errors" |}.

(** A ticket whose two rule scores are equal: a technical channel with an
    operational severity and no keyword. *)
Definition tiedTicket : Ticket :=
  {| channel := "api"; severity := "low";
     summary := "General inquiry about opening hours" |}.

(** A phone ticket of high severity with six operational keywords. *)
Definition phoneTicket : Ticket :=
  {| channel := "phone"; severity := "high";
     summary := "Customer needs help with account balance, card, password and profile" |}.

(** *** Two sentences of the specification, as it states them *)

(** With an assessment: the external score of a classification is the
    confidence when it is the recommended one and one minus the confidence
    otherwise; the classification with the higher combined score is the
    decision, its combined score the confidence before the floor, and the
    reasoning is the framing of the winner followed by the rationale. *)
Definition combinedAsSpecified (w : World) (ticket : Ticket) : Prop :=
  forall a, assessment w ticket = Some a ->
  let d := winner (specCombined a (ruleScores ticket) ai_code_remediation)
                  (specCombined a (ruleScores ticket) vibe_coded_troubleshooting) in
  exists r,
    classifyTicket w ticket = Returns r
    /\ decision r = d
    /\ snd (fst (combine (ruleScores ticket ai_code_remediation)
                         (ruleScores ticket vibe_coded_troubleshooting) (Some a)))
       = specCombined a (ruleScores ticket) d
    /\ result_reasoning r = framing d ++ reasoning a.

(** Without an assessment: the classification with the strictly higher rule
    score is the decision (the operational one on a tie), its rule score the
    confidence before the floor, and the reasoning says that the decision
    rests on the rules alone ([mentionsRules] is what any such text
    satisfies). *)
Definition ruleOnlyAsSpecified (w : World) (ticket : Ticket) : Prop :=
  assessment w ticket = None ->
  let d := winner (ruleScores ticket ai_code_remediation)
                  (ruleScores ticket vibe_coded_troubleshooting) in
  exists r,
    classifyTicket w ticket = Returns r
    /\ decision r = d
    /\ snd (fst (combine (ruleScores ticket ai_code_remediation)
                         (ruleScores ticket vibe_coded_troubleshooting) None))
       = ruleScores ticket d
    /\ mentionsRules (result_reasoning r) = true.

(** The final confidence of the fallback branch on given inputs of the two
    rule scores. *)
Definition fallbackConfidence (i j : nat * bool * bool) : float :=
  let aiScore := scoreOf ai_code_remediation i in
  let vibeScore := scoreOf vibe_coded_troubleshooting j in
  floorAndRound (scoresBy aiScore vibeScore (winner aiScore vibeScore)).

(** *** The real number a finite number denotes *)

(** The bounds on the confidence for an arbitrary assessment need the
    rounding errors of the binary64 operations; they are measured in the
    real numbers. *)

(** Powers of two. *)
Definition bpow (e : Z) : R := powerRZ 2 e.

(** The value of a finite binary64 number, 0 for a zero (and for an
    infinity or NaN, which [is_finite_SF] tells apart). *)
Definition SF2R (x : spec_float) : R :=
  match x with
  | S754_finite s m e => ((if s then - IZR (Zpos m) else IZR (Zpos m)) * bpow e)%R
  | _ => 0%R
  end.

Definition is_finite_SF (x : spec_float) : bool :=
  match x with
  | S754_finite _ _ _ | S754_zero _ => true
  | _ => false
  end.

Definition B2R (x : float) : R := SF2R (Prim2SF x).

Definition finite (x : float) : bool := is_finite_SF (Prim2SF x).

Definition signed (s : bool) (v : R) : R := if s then (- v)%R else v.

(** The error of one rounding of the exact value [v]: a relative part for
    normal results and an absolute part for subnormal ones. *)
Definition err (v : R) : R := (Rabs v * bpow (-52) + bpow (-1074))%R.

(** What a comparison says of two real numbers. *)
Definition Rorder (c : comparison) (x y : R) : Prop :=
  match c with
  | Lt => (x < y)%R
  | Eq => x = y
  | Gt => (y < x)%R
  end.

(** A bound on the error of one operation whose exact result is at most
    1000 in absolute value. *)
Definition tol : R := (/ 1000000000000)%R.


(** *** Definitions for the further properties *)

(** The ticket with another summary. *)
Definition withSummary (ticket : Ticket) (text : string) : Ticket :=
  {| channel := channel ticket; severity := severity ticket; summary := text |}.

(** Whether the two signals of a pair of inputs agree on a classification:
    channel and severity preferred by one side and by it alone. *)
Definition agreeOn (c : Category) (i j : nat * bool * bool) : bool :=
  let '(_, cha, seva) := i in
  let '(_, chv, sevv) := j in
  match c with
  | ai_code_remediation => cha && seva && negb chv && negb sevv
  | vibe_coded_troubleshooting => chv && sevv && negb cha && negb seva
  end.

(** The classification that an assessment recommends, as the combination
    reads it: the technical one for the name [ai_code_remediation], the
    operational one for any other text. *)
Definition recommended (a : Analysis) : Category :=
  if String.eqb (recommendation a) "ai_code_remediation"
  then ai_code_remediation else vibe_coded_troubleshooting.

Definition otherCategory (c : Category) : Category :=
  match c with
  | ai_code_remediation => vibe_coded_troubleshooting
  | vibe_coded_troubleshooting => ai_code_remediation
  end.

(** The service recommends the technical path with confidence 0.85, as the
    stub of tests/setup.js does. *)
Definition technicalReply : World :=
  replying (replyText "ai_code_remediation" "0.85"
                      "Technical issue detected in test environment")
           (JObject {| member_recommendation := Some "ai_code_remediation";
                       member_confidence := Some (SNumber 0.85);
                       member_reasoning :=
                         Some "Technical issue detected in test environment" |}).

(** ** src/ai-helper.js: the indicators of a ticket *)

Definition technical_keywords : list string :=
  [ "api"; "error"; "timeout"; "bug"; "crash"; "exception";
    "database"; "server"; "code"; "integration"; "authentication" ].

(** Extract technical indicators from ticket *)
Definition extractTechnicalIndicators (ticket : Ticket) : list string :=
  let summary_lower := toLowerCase (summary ticket) in
  filter (fun keyword => includes summary_lower keyword) technical_keywords.

Definition operational_keywords : list string :=
  [ "account"; "balance"; "transaction"; "payment"; "card";
    "password"; "profile"; "help"; "support"; "verification" ].

(** Extract operational indicators from ticket *)
Definition extractOperationalIndicators (ticket : Ticket) : list string :=
  let summary_lower := toLowerCase (summary ticket) in
  filter (fun keyword => includes summary_lower keyword) operational_keywords.

(** A ticket about a server, on a channel and with a severity that the
    technical rules do not prefer. *)
Definition serverTicket : Ticket :=
  {| channel := "phone"; severity := "low";
     summary := "The server room door does not close" |}.

(** A text that starts and ends with a character that is not white space. *)
Definition startsClean (k : string) : bool :=
  match k with
  | EmptyString => false
  | String a _ => negb (isWhiteSpace a)
  end.

Fixpoint endsClean (k : string) : bool :=
  match k with
  | EmptyString => true
  | String a k' =>
      match k' with
      | EmptyString => negb (isWhiteSpace a)
      | String _ _ => endsClean k'
      end
  end.

(** A ticket with white space around its fields. *)
Definition paddedTicket : TicketData :=
  {| required := {| channel := "  Mobile_App "; severity := " HIGH";
                    summary := "   API timeout on login  " |};
     ticket_id := Some "T-1"; customer_id := None;
     timestamp := None; tags := Some [ " Login "; "API" ]; priority := None |}.

(** A ticket that passes the schema and has a tag of white space. *)
Definition blankTagTicket : TicketData :=
  {| required := {| channel := "chat"; severity := "low";
                    summary := "Customer cannot find the statement page" |};
     ticket_id := None; customer_id := None;
     timestamp := None; tags := Some [ "billing"; " " ]; priority := Some "p3" |}.

(** ** Properties of the number operations *)

Section Numbers.

Lemma SFmul_comm (x y : spec_float) : SFmul prec emax x y = SFmul prec emax y x.
Proof.
  destruct x as [sx|sx| |sx mx ex], y as [sy|sy| |sy my ey]; simpl;
    try reflexivity; try (f_equal; apply xorb_comm).
  now rewrite xorb_comm, Pos.mul_comm, Z.add_comm.
Qed.

(** Multiplication of numbers commutes. *)
Lemma mul_comm (x y : float) : (x * y)%float = (y * x)%float.
Proof.
  apply Prim2SF_inj. rewrite !mul_spec. apply SFmul_comm.
Qed.

Lemma SFcompare_Eq_sym (x y : spec_float) :
  SFcompare x y = Some Eq -> SFcompare y x = Some Eq.
Proof.
  destruct x as [sx|sx| |sx mx ex], y as [sy|sy| |sy my ey]; simpl;
    try discriminate; try reflexivity;
    try (destruct sx; discriminate); try (destruct sy; discriminate).
  - destruct sx, sy; try discriminate; reflexivity.
  - destruct sx, sy; try discriminate.
    + destruct (Z.compare_spec ex ey) as [He|He|He]; try discriminate.
      subst ey. rewrite Z.compare_refl.
      change (Pos.compare_cont Eq mx my) with (Pos.compare mx my).
      change (Pos.compare_cont Eq my mx) with (Pos.compare my mx).
      intros H. injection H as H.
      destruct (Pos.compare mx my) eqn:Hm; try discriminate.
      apply Pos.compare_eq_iff in Hm.
      subst my. now rewrite Pos.compare_refl.
    + destruct (Z.compare_spec ex ey) as [He|He|He]; try discriminate.
      subst ey. rewrite Z.compare_refl.
      change (Pos.compare_cont Eq mx my) with (Pos.compare mx my).
      change (Pos.compare_cont Eq my mx) with (Pos.compare my mx).
      intros H. injection H as H. apply Pos.compare_eq_iff in H.
      subst my. now rewrite Pos.compare_refl.
Qed.

(** Two numbers that are [===] are not [>] one another. *)
Lemma strictEq_not_gt (a b : float) : strictEq a b = true -> gt a b = false.
Proof.
  unfold strictEq, gt. rewrite FloatAxioms.eqb_spec, ltb_spec. unfold SFeqb, SFltb.
  destruct (SFcompare (Prim2SF a) (Prim2SF b)) as [[| |]|] eqn:E; try discriminate.
  intros _. now rewrite (SFcompare_Eq_sym _ _ E).
Qed.

Lemma SFcompare_antisym (x y : spec_float) (c : comparison) :
  SFcompare x y = Some c -> SFcompare y x = Some (CompOpp c).
Proof.
  destruct x as [sx|sx| |sx mx ex], y as [sy|sy| |sy my ey]; cbn;
    try discriminate; intros H; injection H as <-;
    try (destruct sx; reflexivity); try (destruct sy; reflexivity);
    try reflexivity.
  - destruct sx, sy; reflexivity.
  - change (Pos.compare_cont Eq mx my) with (Pos.compare mx my).
    change (Pos.compare_cont Eq my mx) with (Pos.compare my mx).
    rewrite (Z.compare_antisym ex ey), (Pos.compare_antisym mx my).
    destruct sx, sy; try reflexivity;
      destruct (ex ?= ey)%Z; cbn; try reflexivity;
      destruct (mx ?= my)%positive; reflexivity.
Qed.

Lemma SFcompare_total (x y : spec_float) :
  x <> S754_nan -> y <> S754_nan -> exists c, SFcompare x y = Some c.
Proof.
  destruct x, y; cbn; try congruence; eauto.
Qed.

Lemma not_nan (x : float) : PrimFloat.is_nan x = false -> Prim2SF x <> S754_nan.
Proof.
  unfold PrimFloat.is_nan. rewrite FloatAxioms.eqb_spec. intros H E.
  rewrite E in H. discriminate H.
Qed.

Lemma ltb_leb (a b : float) : (a <? b)%float = true -> (a <=? b)%float = true.
Proof.
  rewrite ltb_spec, leb_spec. unfold SFltb, SFleb.
  now destruct (SFcompare _ _) as [[| |]|].
Qed.

Lemma not_ltb_leb (a b : float) :
  PrimFloat.is_nan a = false -> PrimFloat.is_nan b = false ->
  (a <? b)%float = false -> (b <=? a)%float = true.
Proof.
  intros Ha Hb. rewrite ltb_spec, leb_spec. unfold SFltb, SFleb.
  destruct (SFcompare_total _ _ (not_nan a Ha) (not_nan b Hb)) as [c Hc].
  rewrite Hc, (SFcompare_antisym _ _ _ Hc). now destruct c.
Qed.

Lemma clamp_range (f : float) :
  PrimFloat.is_nan f = false ->
  between 0 1 (Math_max 0 (Math_min 1 f)) = true.
Proof.
  intros Hf. unfold Math_min.
  change (PrimFloat.is_nan 1) with false. rewrite Hf. cbn [orb].
  change (PrimFloat.get_sign 1) with false. 
  assert (Hm : exists m, (if (1 <? f)%float then 1%float else if (f <? 1)%float then f else f) = m
               /\ PrimFloat.is_nan m = false /\ (m <=? 1)%float = true).
  { destruct (1 <? f)%float eqn:H1; [exists 1%float; repeat split; reflexivity|].
    exists f. split; [now destruct (f <? 1)%float|]. split; [exact Hf|].
    now apply not_ltb_leb. }
  destruct Hm as (m & -> & Hn & H1).
  unfold Math_max. change (PrimFloat.is_nan 0) with false. rewrite Hn. cbn [orb].
  change (PrimFloat.get_sign 0) with false.
  destruct (0 <? m)%float eqn:H0.
  - unfold between. now rewrite (ltb_leb _ _ H0), H1.
  - now destruct (m <? 0)%float.
Qed.

(** [StringToNumber] on literals of each form. *)
Lemma StringToNumber_literals :
  StringToNumber "0.9" = 0.9%float
  /\ StringToNumber "-5" = (-5)%float
  /\ StringToNumber "1e-1" = 0.1%float
  /\ StringToNumber " .5E1 " = 5%float
  /\ StringToNumber "0x1F" = 31%float
  /\ StringToNumber "Infinity" = infinity
  /\ StringToNumber "-0" = (-0)%float
  /\ StringToNumber "9007199254740993" = 9007199254740992%float
  /\ StringToNumber "1e400" = infinity
  /\ StringToNumber "" = 0%float
  /\ StringToNumber "-0x1" = nan
  /\ StringToNumber "high" = nan.
Proof. repeat split; vm_compute; reflexivity. Qed.

End Numbers.

(** ** Rounding errors of the number operations *)

Section Rounding.

Lemma bpow_pos (e : Z) : (0 < bpow e)%R.
Proof. apply powerRZ_lt. lra. Qed.

Lemma bpow_add (a b : Z) : bpow (a + b) = (bpow a * bpow b)%R.
Proof. apply powerRZ_add. lra. Qed.

Lemma bpow_IZR (z : Z) : (0 <= z)%Z -> bpow z = IZR (2 ^ z).
Proof.
  intros Hz. unfold bpow. rewrite <- (Z2Nat.id z Hz) at 1.
  rewrite <- pow_powerRZ. rewrite pow_IZR. now rewrite Z2Nat.id.
Qed.

Lemma bpow_neg (z : Z) : (0 <= z)%Z -> bpow (- z) = (/ IZR (2 ^ z))%R.
Proof.
  intros Hz. unfold bpow. rewrite powerRZ_neg'. f_equal. now apply bpow_IZR.
Qed.

Lemma bpow_le (a b : Z) : (a <= b)%Z -> (bpow a <= bpow b)%R.
Proof.
  intros H. replace b with (a + (b - a))%Z by lia. rewrite bpow_add.
  rewrite (bpow_IZR (b - a)) by lia.
  assert (1 <= IZR (2 ^ (b - a)))%R.
  { apply IZR_le. assert (0 < 2 ^ (b - a))%Z by (apply Z.pow_pos_nonneg; lia). lia. }
  pose proof (bpow_pos a). nra.
Qed.

Lemma bpow_lt_inv (a b : Z) : (bpow a < bpow b)%R -> (a < b)%Z.
Proof.
  intros H. destruct (Z_lt_le_dec a b) as [|Hle]; [assumption|].
  apply bpow_le in Hle. lra.
Qed.

Lemma digits2_bounds (m : positive) :
  (2 ^ (Zpos (digits2_pos m) - 1) <= Zpos m < 2 ^ Zpos (digits2_pos m))%Z.
Proof.
  induction m as [m IH|m IH|]; cbn [digits2_pos].
  - rewrite Pos2Z.inj_succ. replace (Z.succ (Zpos (digits2_pos m)) - 1)%Z
      with (Z.succ (Zpos (digits2_pos m) - 1)) by lia.
    rewrite !Z.pow_succ_r by lia. lia.
  - rewrite Pos2Z.inj_succ. replace (Z.succ (Zpos (digits2_pos m)) - 1)%Z
      with (Z.succ (Zpos (digits2_pos m) - 1)) by lia.
    rewrite !Z.pow_succ_r by lia. lia.
  - cbn. lia.
Qed.

Lemma shr_1_m (mrs : shr_record) :
  (0 <= shr_m mrs)%Z ->
  shr_m (shr_1 mrs) = (shr_m mrs / 2)%Z.
Proof.
  destruct mrs as [m r s]. cbn [shr_m]. intros Hm.
  rewrite <- Z.div2_div. unfold shr_1.
  destruct m as [|[p|p|]|p]; cbn [shr_m]; try reflexivity; lia.
Qed.

Lemma iter_shr_m (p : positive) (mrs : shr_record) :
  (0 <= shr_m mrs)%Z ->
  shr_m (iter_pos shr_1 p mrs) = (shr_m mrs / 2 ^ Zpos p)%Z.
Proof.
  revert mrs. induction p as [p IH|p IH|]; intros mrs Hm; cbn [iter_pos].
  - assert (H1 : (0 <= shr_m (shr_1 mrs))%Z).
    { rewrite shr_1_m by assumption. apply Z.div_pos; lia. }
    assert (H2 : (0 <= shr_m (iter_pos shr_1 p (shr_1 mrs)))%Z).
    { rewrite IH by assumption. apply Z.div_pos; [assumption|]. apply Z.pow_pos_nonneg; lia. }
    rewrite IH, IH, shr_1_m by assumption.
    rewrite !Z.div_div by (try lia; apply Z.pow_pos_nonneg; lia).
    f_equal. rewrite Pos2Z.inj_xI, Z.pow_add_r, Z.pow_mul_r by lia.
    change (2 ^ 2)%Z with 4%Z. change (2 ^ 1)%Z with 2%Z.
    replace (4 ^ Zpos p)%Z with (2 ^ Zpos p * 2 ^ Zpos p)%Z; [lia|].
    rewrite <- Z.pow_add_r by lia. replace (Zpos p + Zpos p)%Z with (2 * Zpos p)%Z by lia.
    now rewrite Z.pow_mul_r by lia.
  - assert (H2 : (0 <= shr_m (iter_pos shr_1 p mrs))%Z).
    { rewrite IH by assumption. apply Z.div_pos; [assumption|]. apply Z.pow_pos_nonneg; lia. }
    rewrite IH, IH by assumption.
    rewrite !Z.div_div by (try lia; apply Z.pow_pos_nonneg; lia).
    f_equal. rewrite Pos2Z.inj_xO. rewrite <- Z.pow_add_r by lia. f_equal. lia.
  - rewrite shr_1_m by assumption. reflexivity.
Qed.

Lemma round_nearest_even_bounds (mx : Z) (lx : location) :
  (mx <= round_nearest_even mx lx <= mx + 1)%Z.
Proof.
  unfold round_nearest_even. destruct lx as [|[| |]]; try lia.
  destruct (Z.even mx); lia.
Qed.

Lemma IZR_digits_lower (m : positive) :
  (bpow (Zpos (digits2_pos m) - 1) <= IZR (Zpos m))%R.
Proof.
  rewrite bpow_IZR by lia. apply IZR_le. apply digits2_bounds.
Qed.

(** The unit of the last place of a value is small against the value. *)
Lemma ulp_bound (m : positive) (e : Z) :
  (bpow (fexp prec emax (Zpos (digits2_pos m) + e))
   <= IZR (Zpos m) * bpow e * bpow (-52) + bpow (-1074))%R.
Proof.
  pose proof (IZR_digits_lower m) as Hd.
  pose proof (bpow_pos e) as He. pose proof (bpow_pos (-52)) as H52.
  pose proof (bpow_pos (-1074)) as Hmin.
  unfold fexp, emin, prec, emax.
  destruct (Z.max_spec (Zpos (digits2_pos m) + e - 53) (3 - 1024 - 53)) as [[_ ->]|[_ ->]].
  - change (3 - 1024 - 53)%Z with (-1074)%Z.
    assert (0 <= IZR (Zpos m) * bpow e * bpow (-52))%R; [|lra].
    assert (0 < IZR (Zpos m))%R by (apply IZR_lt; lia).
    apply Rmult_le_pos; [apply Rmult_le_pos|]; lra.
  - replace (Zpos (digits2_pos m) + e - 53)%Z
      with ((Zpos (digits2_pos m) - 1) + e + (-52))%Z by lia.
    rewrite !bpow_add.
    assert (bpow (Zpos (digits2_pos m) - 1) * bpow e <= IZR (Zpos m) * bpow e)%R
      by (apply Rmult_le_compat_r; lra).
    assert (bpow (Zpos (digits2_pos m) - 1) * bpow e * bpow (-52)
            <= IZR (Zpos m) * bpow e * bpow (-52))%R
      by (apply Rmult_le_compat_r; lra).
    lra.
Qed.

(** What [shr_fexp] returns on a mantissa that is not negative: the mantissa
    divided by the power of two that brings the exponent to the canonical
    one, and nothing changed when the exponent is there already. *)
Lemma shr_fexp_spec (m : Z) (e : Z) (l : location) :
  (0 <= m)%Z ->
  let n := Z.max 0 (fexp prec emax (Zdigits2 m + e) - e) in
  exists mrs,
    shr_fexp prec emax m e l = (mrs, (e + n)%Z)
    /\ shr_m mrs = (m / 2 ^ n)%Z
    /\ (n = 0%Z -> loc_of_shr_record mrs = l).
Proof.
  intros Hm n. unfold shr_fexp, shr. subst n.
  destruct (fexp prec emax (Zdigits2 m + e) - e)%Z as [|p|p] eqn:Hn.
  - exists (shr_record_of_loc m l). rewrite Z.add_0_r.
    split; [reflexivity|]. split.
    + change (2 ^ Z.max 0 0)%Z with 1%Z. rewrite Z.div_1_r. now destruct l as [|[| |]].
    + intros _. now destruct l as [|[| |]].
  - exists (iter_pos shr_1 p (shr_record_of_loc m l)).
    replace (Z.max 0 (Zpos p)) with (Zpos p) by lia.
    split; [reflexivity|]. split; [|lia].
    rewrite iter_shr_m; destruct l as [|[| |]]; cbn; (reflexivity || assumption).
  - exists (shr_record_of_loc m l).
    replace (Z.max 0 (Zneg p)) with 0%Z by lia. rewrite Z.add_0_r.
    split; [reflexivity|]. split.
    + change (2 ^ 0)%Z with 1%Z. rewrite Z.div_1_r. now destruct l as [|[| |]].
    + intros _. now destruct l as [|[| |]].
Qed.

Lemma round_aux_error (sx : bool) (m : positive) (e : Z) :
  (IZR (Zpos m) * bpow e < bpow 900)%R ->
  exists v,
    is_finite_SF (binary_round_aux prec emax sx (Zpos m) e loc_Exact) = true
    /\ SF2R (binary_round_aux prec emax sx (Zpos m) e loc_Exact) = signed sx v
    /\ (Rabs (v - IZR (Zpos m) * bpow e)
        <= IZR (Zpos m) * bpow e * bpow (-52) + bpow (-1074))%R.
Proof.
  intros Hbig.
  pose proof (ulp_bound m e) as Hulp.
  pose proof (bpow_pos e) as Hepos.
  pose proof (IZR_digits_lower m) as Hd.
  pose proof (digits2_bounds m) as [_ Hup].
  assert (Hm1 : (1 <= IZR (Zpos m))%R) by (apply IZR_le; lia).
  set (d := Zpos (digits2_pos m)) in *.
  set (E := fexp prec emax (d + e)) in *.
  assert (HdE : (d + e <= 900)%Z).
  { assert (bpow (d - 1 + e) < bpow 900)%R.
    { rewrite bpow_add. assert (bpow (d - 1) * bpow e <= IZR (Zpos m) * bpow e)%R
        by (apply Rmult_le_compat_r; lra). lra. }
    apply bpow_lt_inv in H. lia. }
  assert (He900 : (e < 900)%Z).
  { assert (bpow e < bpow 900)%R by nra. now apply bpow_lt_inv in H. }
  assert (HE : (E = Z.max (d + e - 53) (-1074))%Z) by reflexivity.
  assert (Herr : (0 <= IZR (Zpos m) * bpow e * bpow (-52) + bpow (-1074))%R).
  { pose proof (bpow_pos (-52)). pose proof (bpow_pos (-1074)).
    assert (0 <= IZR (Zpos m) * bpow e * bpow (-52))%R; [|lra].
    apply Rmult_le_pos; [apply Rmult_le_pos|]; lra. }
  unfold binary_round_aux.
  destruct (shr_fexp_spec (Zpos m) e loc_Exact ltac:(lia)) as (mrs & -> & Hmrs & Hloc).
  cbn [Zdigits2] in Hmrs, Hloc |- *. fold d in Hmrs, Hloc |- *. fold E in Hmrs, Hloc |- *.
  set (n1 := Z.max 0 (E - e)) in *.
  set (m1 := shr_m mrs) in *.
  pose proof (round_nearest_even_bounds m1 (loc_of_shr_record mrs)) as Hrne.
  set (m2 := round_nearest_even m1 (loc_of_shr_record mrs)) in *.
  assert (Hn1 : (0 <= n1)%Z) by lia.
  assert (Hp : (0 < 2 ^ n1)%Z) by (apply Z.pow_pos_nonneg; lia).
  assert (Hm1lo : (2 ^ n1 * m1 <= Zpos m)%Z)
    by (rewrite Hmrs; apply Z.mul_div_le; lia).
  assert (Hm1hi : (Zpos m < 2 ^ n1 * (m1 + 1))%Z).
  { rewrite Hmrs. replace (Zpos m / 2 ^ n1 + 1)%Z with (Z.succ (Zpos m / 2 ^ n1)) by lia.
    apply Z.mul_succ_div_gt; lia. }
  assert (Hm1nn : (0 <= m1)%Z) by (rewrite Hmrs; apply Z.div_pos; lia).
  assert (Hm2nn : (0 <= m2)%Z) by lia.
  destruct (shr_fexp_spec m2 (e + n1) loc_Exact Hm2nn) as (mrs2 & -> & Hmrs2 & _).
  set (n2 := Z.max 0 (fexp prec emax (Zdigits2 m2 + (e + n1)) - (e + n1))) in *.
  (* the value is kept by the second shift, and the exponent stays in range *)
  assert (Hkey : (IZR (shr_m mrs2) * bpow (e + n1 + n2) = IZR m2 * bpow (e + n1))%R
                 /\ (e + n1 + n2 <= emax - prec)%Z
                 /\ (Rabs (IZR m2 * bpow (e + n1) - IZR (Zpos m) * bpow e)
                     <= IZR (Zpos m) * bpow e * bpow (-52) + bpow (-1074))%R).
  { destruct (Z_le_gt_dec (E - e) 0) as [Hcase|Hcase].
    - (* no first shift: nothing is rounded *)
      assert (Hn10 : n1 = 0%Z) by lia.
      assert (Hm2 : m2 = Zpos m).
      { unfold m2. rewrite (Hloc Hn10). change (m1 = Zpos m).
        rewrite Hmrs, Hn10. change (2 ^ 0)%Z with 1%Z. now rewrite Z.div_1_r. }
      assert (Hn20 : n2 = 0%Z).
      { unfold n2. rewrite Hm2, Hn10, Z.add_0_r. cbn [Zdigits2]. fold d. fold E. lia. }
      rewrite Hmrs2, Hn20, Hm2, Hn10. change (2 ^ 0)%Z with 1%Z.
      rewrite Z.div_1_r, !Z.add_0_r.
      split; [reflexivity|]. split; [unfold emax, prec; lia|].
      now rewrite Rminus_diag, Rabs_R0.
    - assert (Hn1E : (e + n1 = E)%Z) by lia.
      rewrite Hn1E in *.
      assert (Hm1lt : (m1 < 2 ^ 53)%Z).
      { rewrite Hmrs. apply Z.div_lt_upper_bound; [lia|].
        assert (d <= n1 + 53)%Z by lia.
        assert (2 ^ d <= 2 ^ (n1 + 53))%Z by (apply Z.pow_le_mono_r; lia).
        rewrite Z.pow_add_r in H0 by lia. lia. }
      assert (HbE : bpow E = (bpow e * IZR (2 ^ n1))%R).
      { rewrite <- Hn1E, bpow_add. f_equal. apply bpow_IZR. lia. }
      assert (HEpos : (0 < bpow E)%R) by apply bpow_pos.
      assert (Hlo : (IZR m1 * bpow E <= IZR (Zpos m) * bpow e)%R).
      { rewrite HbE. apply IZR_le in Hm1lo. rewrite mult_IZR in Hm1lo. nra. }
      assert (Hhi : (IZR (Zpos m) * bpow e < (IZR m1 + 1) * bpow E)%R).
      { rewrite HbE. apply IZR_lt in Hm1hi. rewrite mult_IZR, plus_IZR in Hm1hi. nra. }
      assert (Hval : (Rabs (IZR m2 * bpow E - IZR (Zpos m) * bpow e)
                      <= IZR (Zpos m) * bpow e * bpow (-52) + bpow (-1074))%R).
      { destruct Hrne as [Hq1 Hq2]. apply IZR_le in Hq1, Hq2. rewrite plus_IZR in Hq2.
        apply Rabs_le. split; nra. }
      assert (Hn2 : (n2 = 0 \/ (n2 = 1 /\ m2 = 2 ^ 53))%Z).
      { unfold n2. destruct m2 as [|q|q] eqn:Hq; [| |lia].
        - left. cbn [Zdigits2]. unfold fexp, emin, prec, emax. lia.
        - cbn [Zdigits2]. pose proof (digits2_bounds q) as [Hqlo Hqhi].
          assert (Hqd : (Zpos (digits2_pos q) <= 54)%Z).
          { destruct (Z_le_gt_dec (Zpos (digits2_pos q)) 54) as [|Hgt]; [assumption|].
            assert (2 ^ 54 <= 2 ^ (Zpos (digits2_pos q) - 1))%Z
              by (apply Z.pow_le_mono_r; lia).
            lia. }
          destruct (Z_le_gt_dec (Zpos (digits2_pos q)) 53) as [Hle|Hgt].
          + left. unfold fexp, emin, prec, emax. unfold fexp, emin, prec, emax in HE. lia.
          + right. assert (Hd54 : Zpos (digits2_pos q) = 54%Z) by lia.
            rewrite Hd54 in Hqlo |- *. change (2 ^ (54 - 1))%Z with (2 ^ 53)%Z in Hqlo.
            split; [unfold fexp, emin, prec, emax; unfold fexp, emin, prec, emax in HE; lia|lia]. }
      split; [|split; [unfold emax, prec; lia|exact Hval]].
      rewrite Hmrs2. destruct Hn2 as [->|[-> ->]].
      + change (2 ^ 0)%Z with 1%Z. now rewrite Z.div_1_r, Z.add_0_r.
      + rewrite bpow_add. change (2 ^ 53 / 2 ^ 1)%Z with (2 ^ 52)%Z.
        assert (Hb1 : bpow 1 = 2%R) by (rewrite bpow_IZR by lia; reflexivity).
        rewrite Hb1.
        replace (IZR (2 ^ 53)) with (IZR (2 ^ 52) * 2)%R
          by (rewrite <- mult_IZR; reflexivity).
        lra. }
  destruct Hkey as (Hsame & Hexp & Hval).
  assert (Hm3 : (0 <= shr_m mrs2)%Z).
  { rewrite Hmrs2. apply Z.div_pos; [lia|]. apply Z.pow_pos_nonneg; lia. }
  exists (IZR m2 * bpow (e + n1))%R.
  destruct (shr_m mrs2) as [|q|q] eqn:Hq; [| |lia].
  - split; [reflexivity|]. split; [|exact Hval].
    rewrite <- Hsame. cbn. destruct sx; cbn; lra.
  - apply Z.leb_le in Hexp. rewrite Hexp.
    split; [reflexivity|]. split; [|exact Hval].
    rewrite <- Hsame. destruct sx; cbn; lra.
Qed.

Lemma err_nonneg (v : R) : (0 <= err v)%R.
Proof.
  unfold err. pose proof (Rabs_pos v). pose proof (bpow_pos (-52)).
  pose proof (bpow_pos (-1074)). nra.
Qed.

Lemma signed_diff (s : bool) (v w : R) :
  Rabs (signed s v - signed s w) = Rabs (v - w).
Proof.
  destruct s; cbn; [|reflexivity].
  replace (- v - - w)%R with (- (v - w))%R by lra. apply Rabs_Ropp.
Qed.

Lemma Rabs_signed (s : bool) (v : R) : (0 <= v)%R -> Rabs (signed s v) = v.
Proof.
  intros Hv. destruct s; cbn; [rewrite Rabs_Ropp|]; now apply Rabs_pos_eq.
Qed.

Lemma SF2R_finite (s : bool) (m : positive) (e : Z) :
  SF2R (S754_finite s m e) = signed s (IZR (Zpos m) * bpow e).
Proof. destruct s; cbn; lra. Qed.

(** Rounding a signed value: the result is finite and off by at most [err]. *)
Lemma round_aux_signed (sx : bool) (m : positive) (e : Z) (x : R) :
  x = signed sx (IZR (Zpos m) * bpow e) ->
  (Rabs x < bpow 900)%R ->
  is_finite_SF (binary_round_aux prec emax sx (Zpos m) e loc_Exact) = true
  /\ (Rabs (SF2R (binary_round_aux prec emax sx (Zpos m) e loc_Exact) - x) <= err x)%R.
Proof.
  intros -> Hbig.
  assert (Hpos : (0 <= IZR (Zpos m) * bpow e)%R).
  { pose proof (bpow_pos e). assert (0 < IZR (Zpos m))%R by (apply IZR_lt; lia). nra. }
  rewrite Rabs_signed in Hbig by assumption.
  destruct (round_aux_error sx m e Hbig) as (v & Hfin & Hval & Hv).
  split; [exact Hfin|]. rewrite Hval, signed_diff. unfold err.
  now rewrite Rabs_signed.
Qed.

Lemma SFmul_error (x y : spec_float) :
  is_finite_SF x = true -> is_finite_SF y = true ->
  (Rabs (SF2R x * SF2R y) < bpow 900)%R ->
  is_finite_SF (SFmul prec emax x y) = true
  /\ (Rabs (SF2R (SFmul prec emax x y) - SF2R x * SF2R y) <= err (SF2R x * SF2R y))%R.
Proof.
  destruct x as [sx|sx| |sx mx ex], y as [sy|sy| |sy my ey]; try discriminate;
    intros _ _ Hbig; cbn [SFmul].
  - split; [reflexivity|]. cbn [SF2R]. rewrite Rmult_0_l, Rminus_diag, Rabs_R0. apply err_nonneg.
  - split; [reflexivity|]. cbn [SF2R]. rewrite Rmult_0_l, Rminus_diag, Rabs_R0. apply err_nonneg.
  - split; [reflexivity|]. cbn [SF2R]. rewrite Rmult_0_r, Rminus_diag, Rabs_R0. apply err_nonneg.
  - apply round_aux_signed; [|exact Hbig].
    rewrite !SF2R_finite, Pos2Z.inj_mul, mult_IZR, bpow_add.
    destruct sx, sy; cbn; lra.
Qed.

Lemma iter_xO (m d : positive) : Zpos (Pos.iter xO m d) = (Zpos m * 2 ^ Zpos d)%Z.
Proof.
  induction d as [|d IH] using Pos.peano_ind.
  - cbn. lia.
  - rewrite Pos.iter_succ, Pos2Z.inj_xO, IH, Pos2Z.inj_succ, Z.pow_succ_r by lia. lia.
Qed.

Lemma shl_align_value (mx : positive) (ex ex' : Z) :
  (IZR (Zpos (fst (shl_align mx ex ex'))) * bpow (snd (shl_align mx ex ex'))
   = IZR (Zpos mx) * bpow ex)%R.
Proof.
  unfold shl_align. destruct (ex' - ex)%Z as [|d|d] eqn:Hd; cbn [fst snd]; try reflexivity.
  rewrite iter_xO, mult_IZR. replace ex with (ex' + Zpos d)%Z by lia.
  rewrite bpow_add, (bpow_IZR (Zpos d)) by lia. lra.
Qed.

Lemma shl_align_min (mx : positive) (ex ez : Z) :
  (ez <= ex)%Z ->
  (IZR (Zpos (fst (shl_align mx ex ez))) * bpow ez = IZR (Zpos mx) * bpow ex)%R.
Proof.
  intros Hle. rewrite <- (shl_align_value mx ex ez). f_equal. f_equal.
  unfold shl_align. destruct (ez - ex)%Z eqn:Hd; cbn [snd]; lia.
Qed.

Lemma binary_round_error (sx : bool) (m : positive) (e : Z) (x : R) :
  x = signed sx (IZR (Zpos m) * bpow e) ->
  (Rabs x < bpow 900)%R ->
  is_finite_SF (binary_round prec emax sx m e) = true
  /\ (Rabs (SF2R (binary_round prec emax sx m e) - x) <= err x)%R.
Proof.
  intros Hx Hbig. unfold binary_round.
  pose proof (shl_align_value m e (fexp prec emax (Zpos (digits2_pos m) + e))) as Hv.
  destruct (shl_align m e (fexp prec emax (Zpos (digits2_pos m) + e))) as [mz ez].
  cbn [fst snd] in Hv. apply round_aux_signed; [|exact Hbig].
  now rewrite Hv.
Qed.

Lemma binary_normalize_error (z : Z) (e : Z) (x : R) :
  x = (IZR z * bpow e)%R ->
  (Rabs x < bpow 900)%R ->
  is_finite_SF (binary_normalize prec emax z e false) = true
  /\ (Rabs (SF2R (binary_normalize prec emax z e false) - x) <= err x)%R.
Proof.
  intros Hx Hbig. destruct z as [|m|m]; cbn [binary_normalize].
  - split; [reflexivity|]. rewrite Hx. cbn [SF2R].
    rewrite Rmult_0_l, Rminus_diag, Rabs_R0. apply err_nonneg.
  - apply binary_round_error; [|exact Hbig]. now rewrite Hx.
  - apply binary_round_error; [|exact Hbig]. rewrite Hx. cbn [signed].
    change (Zneg m) with (- Zpos m)%Z. rewrite opp_IZR. lra.
Qed.

Lemma cond_Zopp_IZR (s : bool) (m : positive) :
  IZR (cond_Zopp s (Zpos m)) = signed s (IZR (Zpos m)).
Proof. destruct s; cbn; [|reflexivity]. change (Zneg m) with (- Zpos m)%Z. now rewrite opp_IZR. Qed.

Lemma aligned_value (s : bool) (m : positive) (e ez : Z) :
  (ez <= e)%Z ->
  (IZR (cond_Zopp s (Zpos (fst (shl_align m e ez)))) * bpow ez
   = SF2R (S754_finite s m e))%R.
Proof.
  intros Hle. rewrite cond_Zopp_IZR, SF2R_finite.
  rewrite <- (shl_align_min m e ez Hle). destruct s; cbn; lra.
Qed.

Lemma SFadd_error (x y : spec_float) :
  is_finite_SF x = true -> is_finite_SF y = true ->
  (Rabs (SF2R x + SF2R y) < bpow 900)%R ->
  is_finite_SF (SFadd prec emax x y) = true
  /\ (Rabs (SF2R (SFadd prec emax x y) - (SF2R x + SF2R y)) <= err (SF2R x + SF2R y))%R.
Proof.
  destruct x as [sx|sx| |sx mx ex], y as [sy|sy| |sy my ey]; try discriminate;
    intros _ _ Hbig; cbn [SFadd].
  - destruct sx, sy; (split; [reflexivity|]); cbn [SF2R];
      rewrite Rplus_0_l, Rminus_diag, Rabs_R0; apply err_nonneg.
  - split; [reflexivity|]. cbn [SF2R]. rewrite Rplus_0_l, Rminus_diag, Rabs_R0.
    apply err_nonneg.
  - split; [reflexivity|]. cbn [SF2R]. rewrite Rplus_0_r, Rminus_diag, Rabs_R0.
    apply err_nonneg.
  - cbv zeta. apply binary_normalize_error; [|exact Hbig].
    rewrite plus_IZR, Rmult_plus_distr_r.
    rewrite (aligned_value sx mx ex) by lia. now rewrite (aligned_value sy my ey) by lia.
Qed.

Lemma SFsub_error (x y : spec_float) :
  is_finite_SF x = true -> is_finite_SF y = true ->
  (Rabs (SF2R x - SF2R y) < bpow 900)%R ->
  is_finite_SF (SFsub prec emax x y) = true
  /\ (Rabs (SF2R (SFsub prec emax x y) - (SF2R x - SF2R y)) <= err (SF2R x - SF2R y))%R.
Proof.
  destruct x as [sx|sx| |sx mx ex], y as [sy|sy| |sy my ey]; try discriminate;
    intros _ _ Hbig; cbn [SFsub].
  - destruct sx, sy; (split; [reflexivity|]); cbn [SF2R];
      rewrite Rminus_0_r, Rminus_diag, Rabs_R0; apply err_nonneg.
  - split; [reflexivity|].
    replace (SF2R (S754_finite (negb sy) my ey)) with (- SF2R (S754_finite sy my ey))%R
      by (destruct sy; cbn; lra).
    change (SF2R (S754_zero sx)) with 0%R.
    rewrite Rminus_0_l, Rminus_diag, Rabs_R0. apply err_nonneg.
  - split; [reflexivity|]. change (SF2R (S754_zero sy)) with 0%R.
    rewrite Rminus_0_r, Rminus_diag, Rabs_R0. apply err_nonneg.
  - cbv zeta. apply binary_normalize_error; [|exact Hbig].
    rewrite minus_IZR, Rmult_minus_distr_r.
    rewrite (aligned_value sx mx ex) by lia. now rewrite (aligned_value sy my ey) by lia.
Qed.

(** *** Order *)
Lemma bounded_digits (m : positive) (e : Z) :
  bounded prec emax m e = true ->
  (Zpos m < 2 ^ 53)%Z /\ (-1074 <= e)%Z /\ (-1074 < e -> 2 ^ 52 <= Zpos m)%Z.
Proof.
  unfold bounded, canonical_mantissa, fexp, emin, prec, emax.
  intros H. apply andb_true_iff in H as [H _]. apply Z.eqb_eq in H.
  pose proof (digits2_bounds m) as [Hlo Hhi].
  assert (Hd : (Zpos (digits2_pos m) <= 53)%Z) by lia.
  split; [|split; [lia|]].
  - assert (2 ^ Zpos (digits2_pos m) <= 2 ^ 53)%Z by (apply Z.pow_le_mono_r; lia). lia.
  - intros He. assert (Hd53 : Zpos (digits2_pos m) = 53%Z) by lia.
    rewrite Hd53 in Hlo. exact Hlo.
Qed.

(** Among canonical mantissas, the smaller exponent is the smaller value. *)
Lemma canonical_lt (m1 m2 : positive) (e1 e2 : Z) :
  bounded prec emax m1 e1 = true -> bounded prec emax m2 e2 = true ->
  (e1 < e2)%Z ->
  (IZR (Zpos m1) * bpow e1 < IZR (Zpos m2) * bpow e2)%R.
Proof.
  intros H1 H2 Hlt.
  destruct (bounded_digits m1 e1 H1) as (Hm1 & He1 & _).
  destruct (bounded_digits m2 e2 H2) as (_ & _ & Hm2).
  specialize (Hm2 ltac:(lia)).
  apply IZR_lt in Hm1. apply IZR_le in Hm2.
  assert (Hb : (bpow (e1 + 1) <= bpow e2)%R) by (apply bpow_le; lia).
  rewrite bpow_add in Hb.
  assert (Hb1 : bpow 1 = 2%R) by (rewrite bpow_IZR by lia; reflexivity).
  rewrite Hb1 in Hb.
  replace (IZR (2 ^ 53)) with (IZR (2 ^ 52) * 2)%R in Hm1
    by (rewrite <- mult_IZR; reflexivity).
  pose proof (bpow_pos e1). pose proof (bpow_pos e2).
  assert (0 < IZR (2 ^ 52))%R by (apply IZR_lt; lia).
  nra.
Qed.

Lemma mantissa_order (m1 m2 : positive) (e : Z) :
  Rorder (Pos.compare m1 m2) (IZR (Zpos m1) * bpow e) (IZR (Zpos m2) * bpow e).
Proof.
  pose proof (bpow_pos e).
  destruct (Pos.compare_spec m1 m2) as [->|Hlt|Hlt]; cbn.
  - reflexivity.
  - assert (IZR (Zpos m1) < IZR (Zpos m2))%R by (apply IZR_lt; lia). nra.
  - assert (IZR (Zpos m2) < IZR (Zpos m1))%R by (apply IZR_lt; lia). nra.
Qed.

Lemma SFcompare_order (x y : spec_float) (c : comparison) :
  valid_binary x = true -> valid_binary y = true ->
  is_finite_SF x = true -> is_finite_SF y = true ->
  SFcompare x y = Some c -> Rorder c (SF2R x) (SF2R y).
Proof.
  destruct x as [sx|sx| |sx mx ex], y as [sy|sy| |sy my ey]; try discriminate;
    cbn [valid_binary is_finite_SF]; intros Hx Hy _ _; cbn [SFcompare];
    intros H; injection H as <-.
  - reflexivity.
  - rewrite SF2R_finite. change (SF2R (S754_zero sx)) with 0%R.
    pose proof (bpow_pos ey). assert (0 < IZR (Zpos my))%R by (apply IZR_lt; lia).
    destruct sy; cbn; nra.
  - rewrite SF2R_finite. change (SF2R (S754_zero sy)) with 0%R.
    pose proof (bpow_pos ex). assert (0 < IZR (Zpos mx))%R by (apply IZR_lt; lia).
    destruct sx; cbn; nra.
  - rewrite !SF2R_finite.
    pose proof (bpow_pos ex). pose proof (bpow_pos ey).
    assert (0 < IZR (Zpos mx))%R by (apply IZR_lt; lia).
    assert (0 < IZR (Zpos my))%R by (apply IZR_lt; lia).
    change (Pos.compare_cont Eq mx my) with (Pos.compare mx my).
    destruct sx, sy; cbn [signed Rorder]; try nra.
    + destruct (Z.compare_spec ex ey) as [->|Hlt|Hlt]; cbn [Rorder].
      * pose proof (mantissa_order mx my ey) as Ho.
        destruct (Pos.compare mx my); cbn in Ho |- *; lra.
      * pose proof (canonical_lt mx my ex ey Hx Hy Hlt). lra.
      * pose proof (canonical_lt my mx ey ex Hy Hx Hlt). lra.
    + destruct (Z.compare_spec ex ey) as [->|Hlt|Hlt]; cbn [Rorder].
      * pose proof (mantissa_order mx my ey) as Ho.
        destruct (Pos.compare mx my); cbn in Ho |- *; lra.
      * pose proof (canonical_lt mx my ex ey Hx Hy Hlt). lra.
      * pose proof (canonical_lt my mx ey ex Hy Hx Hlt). lra.
Qed.

Lemma finite_not_nan (x : float) : finite x = true -> Prim2SF x <> S754_nan.
Proof. unfold finite. intros H E. rewrite E in H. discriminate H. Qed.

Lemma finite_compare (x y : float) :
  finite x = true -> finite y = true ->
  exists c, SFcompare (Prim2SF x) (Prim2SF y) = Some c
            /\ Rorder c (B2R x) (B2R y).
Proof.
  intros Hx Hy.
  destruct (SFcompare_total _ _ (finite_not_nan x Hx) (finite_not_nan y Hy)) as [c Hc].
  exists c. split; [exact Hc|].
  apply SFcompare_order; auto using Prim2SF_valid.
Qed.

Lemma leb_order (x y : float) :
  finite x = true -> finite y = true ->
  (x <=? y)%float = true -> (B2R x <= B2R y)%R.
Proof.
  intros Hx Hy. rewrite leb_spec. unfold SFleb.
  destruct (finite_compare x y Hx Hy) as (c & -> & Ho).
  destruct c; cbn in Ho; try discriminate; lra.
Qed.

Lemma ltb_order (x y : float) :
  finite x = true -> finite y = true ->
  (x <? y)%float = true -> (B2R x < B2R y)%R.
Proof.
  intros Hx Hy. rewrite ltb_spec. unfold SFltb.
  destruct (finite_compare x y Hx Hy) as (c & -> & Ho).
  destruct c; cbn in Ho; try discriminate; lra.
Qed.

Lemma not_ltb_order (x y : float) :
  finite x = true -> finite y = true ->
  (x <? y)%float = false -> (B2R y <= B2R x)%R.
Proof.
  intros Hx Hy. rewrite ltb_spec. unfold SFltb.
  destruct (finite_compare x y Hx Hy) as (c & -> & Ho).
  destruct c; cbn in Ho; try discriminate; lra.
Qed.

Lemma finite_is_nan (x : float) : finite x = true -> PrimFloat.is_nan x = false.
Proof.
  intros Hx. unfold PrimFloat.is_nan. rewrite FloatAxioms.eqb_spec. unfold SFeqb.
  destruct (finite_compare x x Hx Hx) as (c & -> & Ho).
  destruct c; cbn in Ho; try reflexivity; lra.
Qed.

(** A number between two finite numbers is finite. *)
Lemma between_finite (lo hi x : float) :
  finite lo = true -> finite hi = true ->
  between lo hi x = true -> finite x = true.
Proof.
  unfold between, finite. rewrite !leb_spec. unfold SFleb.
  destruct (Prim2SF lo) as [sl|sl| |sl ml el], (Prim2SF hi) as [sh|sh| |sh mh eh],
    (Prim2SF x) as [s|s| |s m e]; try discriminate; try reflexivity;
    intros _ _; cbn; destruct s; cbn; try discriminate;
    try (destruct sl; discriminate); try (destruct sh; discriminate);
    rewrite ?andb_false_r; try discriminate.
Qed.

Lemma Rabs_le_inv (x a : R) : (Rabs x <= a)%R -> (- a <= x <= a)%R.
Proof. unfold Rabs. destruct (Rcase_abs x); lra. Qed.

Lemma bpow_Zneg (p : positive) : bpow (Zneg p) = (/ IZR (2 ^ Zpos p))%R.
Proof. change (Zneg p) with (- Zpos p)%Z. apply bpow_neg. lia. Qed.

Lemma bpow_m52 : bpow (-52) = (/ 4503599627370496)%R.
Proof. rewrite bpow_Zneg. reflexivity. Qed.

Lemma err_small (v : R) : (Rabs v <= 1000)%R -> (err v <= tol)%R.
Proof.
  intros Hv. unfold err, tol.
  assert (H : (bpow (-1074) <= bpow (-52))%R) by (apply bpow_le; lia).
  rewrite bpow_m52 in *. pose proof (Rabs_pos v). lra.
Qed.

Lemma small_below_overflow (v : R) : (Rabs v <= 1000)%R -> (Rabs v < bpow 900)%R.
Proof.
  intros Hv. assert (H : (bpow 10 <= bpow 900)%R) by (apply bpow_le; lia).
  rewrite (bpow_IZR 10) in H by lia. change (2 ^ 10)%Z with 1024%Z in H. lra.
Qed.

Lemma mul_error (x y : float) :
  finite x = true -> finite y = true ->
  (Rabs (B2R x * B2R y) <= 1000)%R ->
  finite (x * y) = true
  /\ (Rabs (B2R (x * y) - B2R x * B2R y) <= tol)%R.
Proof.
  intros Hx Hy Hv. unfold finite, B2R in *. rewrite mul_spec. unfold SF64mul.
  destruct (SFmul_error _ _ Hx Hy (small_below_overflow _ Hv)) as [Hf He].
  split; [exact Hf|]. pose proof (err_small _ Hv). lra.
Qed.

Lemma add_error (x y : float) :
  finite x = true -> finite y = true ->
  (Rabs (B2R x + B2R y) <= 1000)%R ->
  finite (x + y) = true
  /\ (Rabs (B2R (x + y) - (B2R x + B2R y)) <= tol)%R.
Proof.
  intros Hx Hy Hv. unfold finite, B2R in *. rewrite add_spec. unfold SF64add.
  destruct (SFadd_error _ _ Hx Hy (small_below_overflow _ Hv)) as [Hf He].
  split; [exact Hf|]. pose proof (err_small _ Hv). lra.
Qed.

Lemma sub_error (x y : float) :
  finite x = true -> finite y = true ->
  (Rabs (B2R x - B2R y) <= 1000)%R ->
  finite (x - y) = true
  /\ (Rabs (B2R (x - y) - (B2R x - B2R y)) <= tol)%R.
Proof.
  intros Hx Hy Hv. unfold finite, B2R in *. rewrite sub_spec. unfold SF64sub.
  destruct (SFsub_error _ _ Hx Hy (small_below_overflow _ Hv)) as [Hf He].
  split; [exact Hf|]. pose proof (err_small _ Hv). lra.
Qed.

Lemma B2R_0 : B2R 0 = 0%R.
Proof. reflexivity. Qed.

Lemma B2R_1 : B2R 1 = 1%R.
Proof.
  unfold B2R. change (Prim2SF 1) with (S754_finite false 4503599627370496 (-52)).
  cbn [SF2R]. rewrite bpow_m52. lra.
Qed.

Lemma B2R_half : B2R 0.5 = (/ 2)%R.
Proof.
  unfold B2R. change (Prim2SF 0.5) with (S754_finite false 4503599627370496 (-53)).
  cbn [SF2R]. rewrite bpow_Zneg.
  change (2 ^ 53)%Z with 9007199254740992%Z. lra.
Qed.

Lemma B2R_100 : B2R 100 = 100%R.
Proof.
  unfold B2R. change (Prim2SF 100) with (S754_finite false 7036874417766400 (-46)).
  cbn [SF2R]. rewrite bpow_Zneg.
  change (2 ^ 46)%Z with 70368744177664%Z. lra.
Qed.

Lemma B2R_06 : B2R 0.6 = (5404319552844595 / 9007199254740992)%R.
Proof.
  unfold B2R. change (Prim2SF 0.6) with (S754_finite false 5404319552844595 (-53)).
  cbn [SF2R]. rewrite bpow_Zneg.
  change (2 ^ 53)%Z with 9007199254740992%Z. lra.
Qed.

Lemma B2R_04 : B2R 0.4 = (7205759403792794 / 18014398509481984)%R.
Proof.
  unfold B2R. change (Prim2SF 0.4) with (S754_finite false 7205759403792794 (-54)).
  cbn [SF2R]. rewrite bpow_Zneg.
  change (2 ^ 54)%Z with 18014398509481984%Z. lra.
Qed.

Lemma finite_half : finite 0.5 = true.
Proof. reflexivity. Qed.

(** The floor at 0.5: the result is finite, at least 0.5 and at most the
    larger of the score and 0.5. *)
Lemma Math_max_half (x : float) :
  finite x = true ->
  finite (Math_max x 0.5) = true
  /\ (/ 2 <= B2R (Math_max x 0.5))%R
  /\ (B2R (Math_max x 0.5) <= Rmax (B2R x) (/ 2))%R.
Proof.
  intros Hx. unfold Math_max. rewrite (finite_is_nan x Hx).
  change (PrimFloat.is_nan 0.5) with false. cbn [orb].
  pose proof (Rmax_l (B2R x) (/ 2)). pose proof (Rmax_r (B2R x) (/ 2)).
  destruct (x <? 0.5)%float eqn:H1.
  - rewrite B2R_half. split; [reflexivity|]. lra.
  - pose proof (not_ltb_order x 0.5 Hx finite_half H1) as Hge. rewrite B2R_half in Hge.
    destruct (0.5 <? x)%float; [split; [exact Hx|lra]|].
    destruct (PrimFloat.get_sign x); [|split; [exact Hx|lra]].
    rewrite B2R_half. split; [reflexivity|]. lra.
Qed.

(** [Math.round] of a number between 49.5 and 100.5 is an integer from 50
    to 100. *)
Lemma Math_round_range (y : float) :
  finite y = true ->
  (99 / 2 < B2R y < 201 / 2)%R ->
  exists n, (50 <= n <= 100)%Z /\ Math_round y = ofZ n.
Proof.
  intros Hf [Hlo Hhi]. unfold Math_round, finite, B2R in *.
  pose proof (Prim2SF_valid y) as Hv.
  destruct (Prim2SF y) as [s|s| |s m e]; try discriminate; cbn [SF2R] in Hlo, Hhi;
    try lra.
  cbn [valid_binary] in Hv.
  destruct (bounded_digits m e Hv) as (Hm & He & Hnorm).
  pose proof (bpow_pos e) as Hb.
  assert (Hmpos : (0 < IZR (Zpos m))%R) by (apply IZR_lt; lia).
  destruct s; [nra|].
  destruct (0 <=? e)%Z eqn:He0.
  - (* an exponent that is not negative makes the value at least 2^52 *)
    apply Z.leb_le in He0. exfalso.
    specialize (Hnorm ltac:(lia)). apply IZR_le in Hnorm.
    assert (bpow 0 <= bpow e)%R by (apply bpow_le; lia).
    change (bpow 0) with 1%R in H.
    assert (1000 <= IZR (2 ^ 52))%R by (apply IZR_le; lia).
    nra.
  - apply Z.leb_gt in He0. cbv zeta.
    set (k := (- e)%Z).
    assert (Hk : (0 < k)%Z) by lia.
    assert (Hbk : bpow e = (/ IZR (2 ^ k))%R).
    { replace e with (- k)%Z by lia. apply bpow_neg. lia. }
    assert (Hpk : (0 < 2 ^ k)%Z) by (apply Z.pow_pos_nonneg; lia).
    assert (HpkR : (0 < IZR (2 ^ k))%R) by (apply IZR_lt; lia).
    rewrite Hbk in Hlo, Hhi.
    assert (Hlo' : (99 * 2 ^ k < 2 * Zpos m)%Z).
    { apply lt_IZR. rewrite !mult_IZR.
      apply (Rmult_lt_compat_r (IZR (2 ^ k))) in Hlo; [|exact HpkR].
      rewrite Rmult_assoc, Rinv_l, Rmult_1_r in Hlo by lra. lra. }
    assert (Hhi' : (2 * Zpos m < 201 * 2 ^ k)%Z).
    { apply lt_IZR. rewrite !mult_IZR.
      apply (Rmult_lt_compat_r (IZR (2 ^ k))) in Hhi; [|exact HpkR].
      rewrite Rmult_assoc, Rinv_l, Rmult_1_r in Hhi by lra. lra. }
    set (n := ((Zpos m * 2 + 2 ^ k) / 2 ^ (k + 1))%Z).
    assert (Hpow : (2 ^ (k + 1) = 2 * 2 ^ k)%Z) by (rewrite Z.pow_add_r by lia; lia).
    assert (Hn : (50 <= n <= 100)%Z).
    { unfold n. rewrite Hpow. split.
      - apply Z.div_le_lower_bound; lia.
      - assert ((Zpos m * 2 + 2 ^ k) / (2 * 2 ^ k) < 101)%Z; [|lia].
        apply Z.div_lt_upper_bound; lia. }
    exists n. split; [exact Hn|].
    assert (Hn0 : (n =? 0)%Z = false) by (apply Z.eqb_neq; lia).
    assert (Hnpos : (0 <? n)%Z = true) by (apply Z.ltb_lt; lia).
    now rewrite Hn0, Hnpos.
Qed.

End Rounding.

(** ** The rule definitions and the action planner *)

Section Planner.

(** C9: no channel is in the preferred-channel list of both
    classifications: whatever the channel, it is not included in the
    channels of [ai_code_remediation] and in those of
    [vibe_coded_troubleshooting] at once, and filtering the first list by
    membership in the second leaves nothing. *)
Theorem preferred_channels_disjoint :
  (forall ch : string,
      arrayIncludes (channels (CLASSIFICATION_RULES ai_code_remediation)) ch
      && arrayIncludes (channels (CLASSIFICATION_RULES vibe_coded_troubleshooting)) ch
      = false)
  /\ filter (arrayIncludes (channels (CLASSIFICATION_RULES vibe_coded_troubleshooting)))
            (channels (CLASSIFICATION_RULES ai_code_remediation)) = [].
Proof.
  split; [|reflexivity].
  intros ch. unfold arrayIncludes. cbn [CLASSIFICATION_RULES channels existsb].
  destruct (String.eqb_spec ch "api") as [->|_]; [reflexivity|].
  destruct (String.eqb_spec ch "mobile_app") as [->|_]; [reflexivity|].
  destruct (String.eqb_spec ch "web_app") as [->|_]; [reflexivity|].
  destruct (String.eqb_spec ch "integration") as [->|_]; reflexivity.
Qed.

(** The checklist is one of eight lists, by the decision and by what the
    severity and the channel are. *)
Lemma generateActionChecklist_cases (decision : Category) (ticket : Ticket) :
  generateActionChecklist decision ticket =
  let mobile := String.eqb (channel ticket) "mobile_app" in
  if String.eqb (severity ticket) "critical" then
    match decision with
    | ai_code_remediation =>
        if mobile then
          [ "Escalate to senior team immediately";
            "Analyze error logs and stack traces";
            "Identify root cause in codebase";
            "Test fix on multiple mobile platforms";
            "Generate code patch or fix";
            "Run automated tests on fix" ]
        else
          [ "Escalate to senior team immediately";
            "Analyze error logs and stack traces";
            "Identify root cause in codebase";
            "Generate code patch or fix";
            "Run automated tests on fix";
            "Deploy to staging environment" ]
    | vibe_coded_troubleshooting =>
        [ "Escalate to senior team immediately";
          "Review customer account details";
          "Execute diagnostic workflow";
          "Apply standard troubleshooting steps";
          "Update customer communication";
          "Document resolution steps" ]
    end
  else
    match decision with
    | ai_code_remediation =>
        if mobile then
          [ "Analyze error logs and stack traces";
            "Identify root cause in codebase";
            "Generate code patch or fix";
            "Test fix on multiple mobile platforms";
            "Run automated tests on fix";
            "Deploy to staging environment" ]
        else baseActions ai_code_remediation
    | vibe_coded_troubleshooting => baseActions vibe_coded_troubleshooting
    end.
Proof.
  unfold generateActionChecklist.
  destruct decision;
    destruct (String.eqb (severity ticket) "critical");
    destruct (String.eqb (severity ticket) "high");
    destruct (String.eqb (channel ticket) "mobile_app"); reflexivity.
Qed.

(** C10: for every ticket and either decision the planner returns exactly
    six actions, and neither "Monitor resolution progress closely" nor
    "Prepare incident report", which are pushed after the six base
    actions, is among them. *)
Theorem checklist_six_actions_appended_dropped (decision : Category) (ticket : Ticket) :
  List.length (generateActionChecklist decision ticket) = 6%nat
  /\ ~ In "Monitor resolution progress closely" (generateActionChecklist decision ticket)
  /\ ~ In "Prepare incident report" (generateActionChecklist decision ticket).
Proof.
  rewrite generateActionChecklist_cases. cbv zeta.
  destruct decision;
    destruct (String.eqb (severity ticket) "critical");
    destruct (String.eqb (channel ticket) "mobile_app");
    (split; [reflexivity|]); split; intros H; cbn in H;
    repeat (destruct H as [H|H]; [discriminate H|]); exact H.
Qed.

End Planner.

(** ** The rule scorer *)

Section RuleScorer.

(** The score is the arithmetic of [ruleScore] on the inputs of the ticket. *)
Lemma calculateRuleBasedScore_scoreOf (ticket : Ticket) (c : Category) :
  calculateRuleBasedScore ticket c = scoreOf c (inputsOf ticket c).
Proof. reflexivity. Qed.

(** No ticket matches more keywords than the list has. *)
Lemma matchedKeywords_le (ticket : Ticket) (c : Category) :
  (matchedKeywords ticket c <= totalKeywords c)%nat.
Proof. apply filter_length_le. Qed.

Lemma inputsOf_in_scoreInputs (ticket : Ticket) (c : Category) :
  In (inputsOf ticket c) (scoreInputs c).
Proof.
  unfold inputsOf, scoreInputs. apply in_flat_map.
  exists (matchedKeywords ticket c). split.
  - apply in_seq. pose proof (matchedKeywords_le ticket c). lia.
  - destruct (channelPreferred ticket c), (severityPreferred ticket c);
      cbn; auto.
Qed.

(** A boolean property checked on every input holds of every ticket. *)
Lemma for_all_inputs (c : Category) (P : nat * bool * bool -> bool) :
  forallb P (scoreInputs c) = true ->
  forall ticket, P (inputsOf ticket c) = true.
Proof.
  intros H ticket. rewrite forallb_forall in H.
  apply H, inputsOf_in_scoreInputs.
Qed.

Lemma scoreOf_specFormula (c : Category) :
  forallb (fun i => Leibniz.eqb (scoreOf c i) (specFormula c i)
                    && between 0 1 (scoreOf c i)) (scoreInputs c) = true.
Proof. destruct c; vm_compute; reflexivity. Qed.

(** *** Keywords that appear in the summary *)

Lemma In_allAscii (c : ascii) : In c allAscii.
Proof.
  unfold allAscii. apply in_map_iff. exists (nat_of_ascii c). split.
  - apply ascii_nat_embedding.
  - apply in_seq. pose proof (nat_ascii_bounded c). lia.
Qed.

(** Against a character that is no capital letter, the lower-cased
    character is equal exactly when the character is the same letter. *)
Lemma lowerChar_sameLetter (a b : ascii) :
  isUpperCase a = false -> Ascii.eqb a (lowerChar b) = sameLetter a b.
Proof.
  assert (H : forallb (fun a => forallb (fun b =>
                implb (negb (isUpperCase a))
                      (Bool.eqb (Ascii.eqb a (lowerChar b)) (sameLetter a b)))
              allAscii) allAscii = true) by (vm_compute; reflexivity).
  rewrite forallb_forall in H. specialize (H a (In_allAscii a)).
  rewrite forallb_forall in H. specialize (H b (In_allAscii b)).
  intros Ha. rewrite Ha in H. now apply Bool.eqb_prop in H.
Qed.

(** Against a keyword without capital letters, the lower-cased text starts
    with the keyword exactly when a part at the start of the text is the
    keyword but for letter case. *)
Lemma startsWith_lower (k s : string) :
  forallb (fun a => negb (isUpperCase a)) (list_ascii_of_string k) = true ->
  (startsWith (toLowerCase s) k = true
   <-> exists part after, s = part ++ after /\ sameText k part = true).
Proof.
  revert s. induction k as [|a k IH]; intros s Hk.
  - split; [intros _|intros _; now destruct s].
    exists EmptyString, s. split; reflexivity.
  - cbn [list_ascii_of_string forallb] in Hk. apply andb_true_iff in Hk as [Ha Hk].
    apply negb_true_iff in Ha. destruct s as [|b s].
    + split; [discriminate|]. intros (part & after & E & H).
      destruct part; [discriminate H|discriminate E].
    + cbn [toLowerCase startsWith]. rewrite (lowerChar_sameLetter a b Ha).
      rewrite andb_true_iff, (IH s Hk). split.
      * intros (Hab & part & after & -> & H).
        exists (String b part), after. split; [reflexivity|].
        cbn [sameText]. now rewrite Hab, H.
      * intros (part & after & E & H). destruct part as [|b' part]; [discriminate H|].
        injection E as <- ->. cbn [sameText] in H.
        apply andb_true_iff in H as [Hab H]. split; [exact Hab|]. now exists part, after.
Qed.

(** The test of the program, [includes] on the lower-cased summary, holds
    exactly of the keywords that appear in the summary. *)
Lemma includes_lower_appearsIn (k s : string) :
  forallb (fun a => negb (isUpperCase a)) (list_ascii_of_string k) = true ->
  (includes (toLowerCase s) k = true <-> appearsIn k s).
Proof.
  intros Hk. unfold appearsIn. induction s as [|c s IH].
  - cbn [toLowerCase includes]. rewrite orb_false_r.
    change EmptyString with (toLowerCase EmptyString) at 1.
    rewrite (startsWith_lower k EmptyString Hk). split.
    + intros (part & after & E & H). now exists EmptyString, part, after.
    + intros (before & part & after & E & H). destruct before; [|discriminate E].
      now exists part, after.
  - cbn [toLowerCase includes]. rewrite orb_true_iff.
    change (String (lowerChar c) (toLowerCase s)) with (toLowerCase (String c s)).
    rewrite (startsWith_lower k (String c s) Hk), IH. split.
    + intros [(part & after & E & H)|(before & part & after & -> & H)].
      * now exists EmptyString, part, after.
      * now exists (String c before), part, after.
    + intros (before & part & after & E & H). destruct before as [|c' before].
      * left. now exists part, after.
      * right. injection E as <- ->. now exists before, part, after.
Qed.

(** No keyword of the rules has a capital letter. *)
Lemma keywords_lower_case (c : Category) :
  forallb (fun k => forallb (fun a => negb (isUpperCase a)) (list_ascii_of_string k))
          (keywords (CLASSIFICATION_RULES c)) = true.
Proof. destruct c; vm_compute; reflexivity. Qed.

(** The filter of the program counts the keywords that appear. *)
Lemma filter_keywordCount (text : string) (l : list string) :
  forallb (fun k => forallb (fun a => negb (isUpperCase a)) (list_ascii_of_string k)) l
  = true ->
  keywordCount text l
    (List.length (filter (fun keyword => includes (toLowerCase text) keyword) l)).
Proof.
  induction l as [|k l IH]; intros Hl; [constructor|].
  cbn [forallb] in Hl. apply andb_true_iff in Hl as [Hk Hl].
  cbn [filter]. destruct (includes (toLowerCase text) k) eqn:E.
  - cbn [List.length]. apply count_appears; [|now apply IH].
    now apply includes_lower_appearsIn.
  - apply count_absent; [|now apply IH].
    intros H. apply (includes_lower_appearsIn k text Hk) in H. congruence.
Qed.

Lemma keywordCount_unique (text : string) (l : list string) (n m : nat) :
  keywordCount text l n -> keywordCount text l m -> n = m.
Proof.
  intros Hn. revert m. induction Hn as [|k l n Hk _ IH|k l n Hk _ IH];
    intros m Hm; inversion Hm; subst; try reflexivity; try contradiction; auto.
Qed.

Lemma arrayIncludes_In (xs : list string) (x : string) :
  arrayIncludes xs x = true -> In x xs.
Proof.
  unfold arrayIncludes. intros H. apply existsb_exists in H as (y & Hy & E).
  apply String.eqb_eq in E. now subst.
Qed.

Lemma arrayIncludes_points (xs : list string) (x : string) :
  (if arrayIncludes xs x then 0.3 else 0)%float = points x xs.
Proof.
  unfold points. destruct (in_dec String.string_dec x xs) as [Hin|Hout].
  - assert (H : arrayIncludes xs x = true).
    { unfold arrayIncludes. apply existsb_exists. exists x. split; [exact Hin|].
      apply String.eqb_refl. }
    now rewrite H.
  - destruct (arrayIncludes xs x) eqn:E; [|reflexivity].
    apply arrayIncludes_In in E. contradiction.
Qed.

(** C5: for every ticket and classification, the rule score is the number
    of the keywords of the classification that appear in the summary as
    substrings, letter case ignored, over the number of its keywords, times
    0.4, plus 0.3 when the channel is in the preferred channels, plus 0.3
    when the severity is in the preferred severities; that number of
    keywords is the only one; the score is a number between 0 and 1; the
    function is total. *)
Theorem rule_score_formula (ticket : Ticket) (c : Category) :
  exists matched,
    keywordCount (summary ticket) (keywords (CLASSIFICATION_RULES c)) matched
    /\ (forall n, keywordCount (summary ticket) (keywords (CLASSIFICATION_RULES c)) n ->
                  n = matched)
    /\ calculateRuleBasedScore ticket c = specRuleScore ticket c matched
    /\ between 0 1 (calculateRuleBasedScore ticket c) = true.
Proof.
  exists (matchedKeywords ticket c).
  assert (Hcount : keywordCount (summary ticket) (keywords (CLASSIFICATION_RULES c))
                                (matchedKeywords ticket c))
    by apply filter_keywordCount, keywords_lower_case.
  split; [exact Hcount|]. split.
  { intros n Hn. exact (keywordCount_unique _ _ _ _ Hn Hcount). }
  rewrite calculateRuleBasedScore_scoreOf.
  pose proof (for_all_inputs c _ (scoreOf_specFormula c) ticket) as H.
  cbv beta in H. apply andb_true_iff in H as [Heq Hrange].
  split; [|exact Hrange].
  apply Leibniz.eqb_spec in Heq. rewrite Heq.
  unfold specFormula, inputsOf, specRuleScore, channelPreferred, severityPreferred,
    totalKeywords.
  now rewrite !arrayIncludes_points.
Qed.

End RuleScorer.

(** ** The decision combiner *)

Section Combiner.

(** The combination in one formula: the winner of the two compared scores,
    its score, and the reasoning for it. *)
Lemma combine_compared (aiScore vibeScore : float) (aiAnalysis : option Analysis) :
  combine aiScore vibeScore aiAnalysis =
  let cs := comparedScores aiScore vibeScore aiAnalysis in
  let d := winner (fst cs) (snd cs) in
  (d, scoresBy (fst cs) (snd cs) d,
   match aiAnalysis with
   | Some a => framing d ++ reasoning a
   | None => fallbackReasoning d
   end).
Proof.
  destruct aiAnalysis as [a|]; cbn [combine comparedScores fst snd]; cbv zeta.
  - unfold combinedScore, externalScore, winner. cbn [scoresBy].
    rewrite !(mul_comm 0.6), !(mul_comm 0.4).
    destruct (gt _ _); reflexivity.
  - unfold winner. destruct (gt aiScore vibeScore); reflexivity.
Qed.

(** What [classifyTicket] returns, field by field. *)
Lemma classifyTicket_returns (w : World) (ticket : Ticket) :
  let cs := comparedScores (ruleScores ticket ai_code_remediation)
                           (ruleScores ticket vibe_coded_troubleshooting)
                           (assessment w ticket) in
  let d := winner (fst cs) (snd cs) in
  exists r,
    classifyTicket w ticket = Returns r
    /\ decision r = d
    /\ result_confidence r = floorAndRound (scoresBy (fst cs) (snd cs) d)
    /\ result_reasoning r =
       match assessment w ticket with
       | Some a => framing d ++ reasoning a
       | None => fallbackReasoning d
       end
    /\ next_actions r = generateActionChecklist d ticket
    /\ ai_analysis_used (metadata r) =
       match assessment w ticket with Some _ => true | None => false end.
Proof.
  cbv zeta. unfold classifyTicket, assessment, ruleScores.
  rewrite combine_compared. cbv zeta. cbn [try_catch].
  eexists. split; [reflexivity|]. cbn [decision result_confidence result_reasoning
    next_actions metadata ai_analysis_used]. repeat split.
Qed.

(** The assessment is what the helper returns. *)
Lemma assessment_of_helper (w : World) (ticket : Ticket) (a : option Analysis) :
  analyzeTicketWithAI w ticket = Returns a -> assessment w ticket = a.
Proof.
  unfold assessment, innerTry. intros ->. now destruct a.
Qed.

(** C2: whenever the two scores that are compared, the combined scores with
    an assessment and the rule scores without one, are equal, the decision
    is [vibe_coded_troubleshooting]. *)
Theorem tie_goes_to_operational (w : World) (ticket : Ticket) :
  let cs := comparedScores (ruleScores ticket ai_code_remediation)
                           (ruleScores ticket vibe_coded_troubleshooting)
                           (assessment w ticket) in
  strictEq (fst cs) (snd cs) = true ->
  exists r, classifyTicket w ticket = Returns r
            /\ decision r = vibe_coded_troubleshooting.
Proof.
  cbv zeta. intros Htie.
  destruct (classifyTicket_returns w ticket) as (r & Hr & Hd & _).
  exists r. split; [exact Hr|]. rewrite Hd. unfold winner.
  now rewrite (strictEq_not_gt _ _ Htie).
Qed.

(** The tied ticket, in a process without a credential, is such a tie. *)
Lemma tie_goes_to_operational_witness :
  strictEq
    (fst (comparedScores (ruleScores tiedTicket ai_code_remediation)
                         (ruleScores tiedTicket vibe_coded_troubleshooting)
                         (assessment noCredential tiedTicket)))
    (snd (comparedScores (ruleScores tiedTicket ai_code_remediation)
                         (ruleScores tiedTicket vibe_coded_troubleshooting)
                         (assessment noCredential tiedTicket))) = true
  /\ exists r, classifyTicket noCredential tiedTicket = Returns r
               /\ decision r = vibe_coded_troubleshooting.
Proof.
  split; [vm_compute; reflexivity|].
  apply (tie_goes_to_operational noCredential tiedTicket).
  vm_compute; reflexivity.
Defined.

(** The score before the floor is the compared score of the winner. *)
Lemma combine_confidence (aiScore vibeScore : float) (aiAnalysis : option Analysis) :
  let cs := comparedScores aiScore vibeScore aiAnalysis in
  snd (fst (combine aiScore vibeScore aiAnalysis))
  = scoresBy (fst cs) (snd cs) (winner (fst cs) (snd cs)).
Proof. now rewrite combine_compared. Qed.

Lemma scoresBy_ruleScores (ticket : Ticket) (c : Category) :
  scoresBy (ruleScores ticket ai_code_remediation)
           (ruleScores ticket vibe_coded_troubleshooting) c = ruleScores ticket c.
Proof. now destruct c. Qed.

Lemma scoresBy_combinedScore (a : Analysis) (rule : Category -> float) (c : Category) :
  scoresBy (combinedScore a rule ai_code_remediation)
           (combinedScore a rule vibe_coded_troubleshooting) c = combinedScore a rule c.
Proof. now destruct c. Qed.

Lemma scoresBy_eta (ticket : Ticket) (a : Analysis) (c : Category) :
  combinedScore a (scoresBy (ruleScores ticket ai_code_remediation)
                            (ruleScores ticket vibe_coded_troubleshooting)) c
  = combinedScore a (ruleScores ticket) c.
Proof. unfold combinedScore. now rewrite scoresBy_ruleScores. Qed.

(** When the technical path is the recommended one, the external scores of
    the program are those of the specification. *)
Lemma externalScore_technical_recommended (a : Analysis) (c : Category) :
  recommendation a = "ai_code_remediation" ->
  externalScore a c = specExternalScore a c.
Proof.
  intros H. unfold externalScore, specExternalScore. rewrite H.
  now destruct c.
Qed.

(** C1, as the program has it: with an assessment present, the external
    score of the technical classification is the confidence when
    [ai_code_remediation] is recommended and one minus the confidence
    otherwise; the external score of the operational classification is one
    minus the technical one; each combined score is 0.6 times the external
    score plus 0.4 times the rule score; the technical classification wins
    when its combined score is strictly higher and the operational one
    otherwise; the winner's combined score is the confidence before the
    floor, and the reasoning is the winner's framing followed by the
    rationale.  When [ai_code_remediation] is recommended these are the
    scores of the specification. *)
Theorem combined_decision (w : World) (ticket : Ticket) (a : Analysis) :
  assessment w ticket = Some a ->
  let combined := combinedScore a (ruleScores ticket) in
  let d := winner (combined ai_code_remediation) (combined vibe_coded_troubleshooting) in
  externalScore a ai_code_remediation
  = (if String.eqb (recommendation a) "ai_code_remediation"
     then confidence a else (1 - confidence a)%float)
  /\ externalScore a vibe_coded_troubleshooting
     = (1 - externalScore a ai_code_remediation)%float
  /\ (forall c, combined c
                = (0.6 * externalScore a c + 0.4 * ruleScores ticket c)%float)
  /\ (recommendation a = "ai_code_remediation" ->
      forall c, combined c = specCombined a (ruleScores ticket) c)
  /\ exists r,
      classifyTicket w ticket = Returns r
      /\ decision r = d
      /\ snd (fst (combine (ruleScores ticket ai_code_remediation)
                           (ruleScores ticket vibe_coded_troubleshooting) (Some a)))
         = combined d
      /\ result_confidence r = floorAndRound (combined d)
      /\ result_reasoning r = framing d ++ reasoning a
      /\ ai_analysis_used (metadata r) = true.
Proof.
  intros Ha. cbv zeta.
  split; [reflexivity|]. split; [reflexivity|]. split; [reflexivity|].
  split.
  { intros Hrec c. unfold combinedScore, specCombined.
    now rewrite externalScore_technical_recommended. }
  destruct (classifyTicket_returns w ticket) as (r & Hr & Hd & Hc & Hs & _ & Hu).
  rewrite Ha in Hd, Hc, Hs, Hu. cbn [comparedScores fst snd] in Hd, Hc.
  rewrite scoresBy_combinedScore in Hc. rewrite !scoresBy_eta in Hd, Hc.
  exists r. split; [exact Hr|]. split; [exact Hd|]. split.
  { rewrite combine_confidence. cbn [comparedScores fst snd].
    now rewrite scoresBy_combinedScore, !scoresBy_eta. }
  split; [exact Hc|]. split; [now rewrite Hs|exact Hu].
Qed.

(** The phone ticket with the operational reply has an assessment. *)
Lemma combined_decision_witness :
  assessment operationalReply phoneTicket
  = Some {| recommendation := "vibe_coded_troubleshooting";
            confidence := 0.46;
            reasoning := "Account question" |}
  /\ exists r,
      classifyTicket operationalReply phoneTicket = Returns r
      /\ decision r = ai_code_remediation
      /\ result_reasoning r = "Technical issue detected: Account question".
Proof.
  split; [reflexivity|].
  destruct (combined_decision operationalReply phoneTicket _ eq_refl)
    as (_ & _ & _ & _ & r & Hr & Hd & _ & _ & Hs & _).
  exists r. split; [exact Hr|]. split.
  - rewrite Hd. vm_compute. reflexivity.
  - rewrite Hs. vm_compute. reflexivity.
Defined.

(** C1, as the specification states it, fails on the phone ticket when the
    service recommends the operational path with confidence 0.46: by the
    formula of the specification the operational combined score
    (0.44400000000000006) is strictly above the technical one (0.444), yet
    the program computes the operational external score as 1 - (1 - 0.46),
    which is 0.45999999999999996, finds the technical combined score the
    higher one and decides [ai_code_remediation]. *)
Lemma combined_decision_counterexample :
  (forall isoDate, validateTicketInput isoDate (onlyRequired phoneTicket) = true)
  /\ assessment operationalReply phoneTicket
     = Some {| recommendation := "vibe_coded_troubleshooting";
               confidence := 0.46;
               reasoning := "Account question" |}
  /\ gt (specCombined {| recommendation := "vibe_coded_troubleshooting";
                         confidence := 0.46;
                         reasoning := "Account question" |}
                      (ruleScores phoneTicket) vibe_coded_troubleshooting)
        (specCombined {| recommendation := "vibe_coded_troubleshooting";
                         confidence := 0.46;
                         reasoning := "Account question" |}
                      (ruleScores phoneTicket) ai_code_remediation) = true
  /\ (exists r, classifyTicket operationalReply phoneTicket = Returns r
                /\ decision r = ai_code_remediation)
  /\ ~ combinedAsSpecified operationalReply phoneTicket.
Proof.
  split; [intros isoDate; reflexivity|]. split; [reflexivity|].
  split; [vm_compute; reflexivity|]. split.
  - eexists. split; [vm_compute; reflexivity|reflexivity].
  - intros H. destruct (H _ eq_refl) as (r & Hr & Hd & _).
    vm_compute in Hr. injection Hr as <-.
    vm_compute in Hd. discriminate Hd.
Qed.

(** C3, as the program has it: with no assessment the decision is the
    classification with the strictly higher rule score, the operational one
    on a tie; its rule score is the confidence before the floor; the
    reasoning is one of two fixed sentences, chosen by the decision, neither
    of which speaks of rules; that no assessment was used is recorded in
    [metadata.ai_analysis_used]. *)
Theorem rule_only_fallback (w : World) (ticket : Ticket) :
  assessment w ticket = None ->
  let d := winner (ruleScores ticket ai_code_remediation)
                  (ruleScores ticket vibe_coded_troubleshooting) in
  exists r,
    classifyTicket w ticket = Returns r
    /\ decision r = d
    /\ snd (fst (combine (ruleScores ticket ai_code_remediation)
                         (ruleScores ticket vibe_coded_troubleshooting) None))
       = ruleScores ticket d
    /\ result_confidence r = floorAndRound (ruleScores ticket d)
    /\ result_reasoning r = fallbackReasoning d
    /\ mentionsRules (result_reasoning r) = false
    /\ ai_analysis_used (metadata r) = false.
Proof.
  intros Ha. cbv zeta.
  destruct (classifyTicket_returns w ticket) as (r & Hr & Hd & Hc & Hs & _ & Hu).
  rewrite Ha in Hd, Hc, Hs, Hu. cbn [comparedScores fst snd] in Hd, Hc.
  rewrite scoresBy_ruleScores in Hc.
  exists r. split; [exact Hr|]. split; [exact Hd|]. split.
  { rewrite combine_confidence. cbn [comparedScores fst snd].
    now rewrite scoresBy_ruleScores. }
  split; [exact Hc|]. split; [exact Hs|]. split; [|exact Hu].
  rewrite Hs. now destruct (winner _ _).
Qed.

(** Scenario 2 without a credential has no assessment. *)
Lemma rule_only_fallback_witness :
  assessment noCredential scenario2 = None
  /\ exists r,
      classifyTicket noCredential scenario2 = Returns r
      /\ decision r = vibe_coded_troubleshooting
      /\ result_reasoning r = "Operational indicators suggest workflow-based resolution".
Proof.
  split; [reflexivity|].
  destruct (rule_only_fallback noCredential scenario2 eq_refl)
    as (r & Hr & Hd & _ & _ & Hs & _).
  exists r. split; [exact Hr|]. split.
  - rewrite Hd. vm_compute. reflexivity.
  - rewrite Hs. vm_compute. reflexivity.
Defined.

(** C3, as the specification states it, fails on scenario 2 in a process
    without a credential: the reasoning returned is "Operational indicators
    suggest workflow-based resolution", which says nothing of rules. *)
Lemma rule_only_reasoning_counterexample :
  (forall isoDate, validateTicketInput isoDate (onlyRequired scenario2) = true)
  /\ assessment noCredential scenario2 = None
  /\ (exists r, classifyTicket noCredential scenario2 = Returns r
                /\ result_reasoning r
                   = "Operational indicators suggest workflow-based resolution")
  /\ ~ ruleOnlyAsSpecified noCredential scenario2.
Proof.
  split; [intros isoDate; reflexivity|]. split; [reflexivity|]. split.
  - eexists. split; [vm_compute; reflexivity|reflexivity].
  - intros H. destruct (H eq_refl) as (r & Hr & _ & _ & Hm).
    vm_compute in Hr. injection Hr as <-.
    vm_compute in Hm. discriminate Hm.
Qed.

End Combiner.

(** ** The scenarios of the specification and the confidence range *)

Section Scenarios.

(** C8 on the program: for scenario 2, with no assessment available, the
    decision is [vibe_coded_troubleshooting] and the confidence is 0.7
    itself, which is not greater than 0.7; the operational rule score of the
    ticket is that same 0.7 (five of twenty keywords, a preferred channel
    and a preferred severity). *)
Theorem scenario2_confidence (w : World) :
  assessment w scenario2 = None ->
  exists r,
    classifyTicket w scenario2 = Returns r
    /\ decision r = vibe_coded_troubleshooting
    /\ result_confidence r = 0.7%float
    /\ gt (result_confidence r) 0.7 = false
    /\ calculateRuleBasedScore scenario2 vibe_coded_troubleshooting = 0.7%float
    /\ matchedKeywords scenario2 vibe_coded_troubleshooting = 5%nat.
Proof.
  intros Ha.
  destruct (classifyTicket_returns w scenario2) as (r & Hr & Hd & Hc & _).
  rewrite Ha in Hd, Hc. cbn [comparedScores fst snd] in Hd, Hc.
  exists r. split; [exact Hr|].
  assert (Hw : winner (ruleScores scenario2 ai_code_remediation)
                      (ruleScores scenario2 vibe_coded_troubleshooting)
               = vibe_coded_troubleshooting) by (vm_compute; reflexivity).
  rewrite Hw in Hd, Hc.
  split; [exact Hd|]. rewrite Hc.
  repeat split; vm_compute; reflexivity.
Qed.

(** A process without a credential gives no assessment. *)
Lemma scenario2_confidence_witness :
  assessment noCredential scenario2 = None
  /\ exists r,
      classifyTicket noCredential scenario2 = Returns r
      /\ gt (result_confidence r) 0.7 = false.
Proof.
  split; [reflexivity|].
  destruct (scenario2_confidence noCredential eq_refl) as (r & Hr & _ & _ & Hgt & _).
  exists r. split; [exact Hr | exact Hgt].
Defined.

(** C7 on the program: for scenario 3, whatever the service answers, the
    first action is the escalation and no action among the six returned is
    an incident report; "Prepare incident report", which is one, was pushed
    to the end of the list and cut off by [slice(0, 6)]. *)
Theorem scenario3_actions (w : World) :
  exists r,
    classifyTicket w scenario3 = Returns r
    /\ nth_error (next_actions r) 0 = Some "Escalate to senior team immediately"
    /\ existsb isIncidentReport (next_actions r) = false
    /\ ~ In "Prepare incident report" (next_actions r)
    /\ isIncidentReport "Prepare incident report" = true.
Proof.
  destruct (classifyTicket_returns w scenario3) as (r & Hr & _ & _ & _ & Hn & _).
  exists r. split; [exact Hr|]. rewrite Hn.
  split; [now destruct (winner _ _)|].
  split; [now destruct (winner _ _)|].
  split; [|reflexivity].
  destruct (winner _ _); intros H; cbn in H;
    repeat (destruct H as [H|H]; [discriminate H|]); exact H.
Qed.

(** A boolean property checked on every pair of inputs holds of every
    ticket. *)
Lemma for_all_input_pairs (P : nat * bool * bool -> nat * bool * bool -> bool) :
  forallb (fun i => forallb (P i) (scoreInputs vibe_coded_troubleshooting))
          (scoreInputs ai_code_remediation) = true ->
  forall ticket,
    P (inputsOf ticket ai_code_remediation) (inputsOf ticket vibe_coded_troubleshooting) = true.
Proof.
  intros H ticket. rewrite forallb_forall in H.
  specialize (H _ (inputsOf_in_scoreInputs ticket ai_code_remediation)).
  rewrite forallb_forall in H.
  apply H, inputsOf_in_scoreInputs.
Qed.

Lemma fallbackConfidence_range :
  forallb (fun i => forallb (fun j => between 0.5 1 (fallbackConfidence i j)
                                      && between 0 1 (fallbackConfidence i j))
                            (scoreInputs vibe_coded_troubleshooting))
          (scoreInputs ai_code_remediation) = true.
Proof. vm_compute. reflexivity. Qed.

(** Without an assessment the confidence is between 0.5 and 1. *)
Lemma rule_only_confidence_range (ticket : Ticket) :
  let d := winner (ruleScores ticket ai_code_remediation)
                  (ruleScores ticket vibe_coded_troubleshooting) in
  between 0.5 1 (floorAndRound (ruleScores ticket d)) = true
  /\ between 0 1 (floorAndRound (ruleScores ticket d)) = true.
Proof.
  cbv zeta.
  pose proof (for_all_input_pairs _ fallbackConfidence_range ticket) as H.
  cbv beta in H. unfold fallbackConfidence in H. cbv zeta in H.
  rewrite <- !calculateRuleBasedScore_scoreOf in H.
  fold (ruleScores ticket ai_code_remediation) in H.
  fold (ruleScores ticket vibe_coded_troubleshooting) in H.
  rewrite scoresBy_ruleScores in H.
  now apply andb_true_iff in H.
Qed.

(** Every checklist has six actions of five characters or more. *)
Lemma checklist_valid (decision : Category) (ticket : Ticket) :
  forallb (fun action => (5 <=? String.length action)%nat)
          (generateActionChecklist decision ticket) = true
  /\ List.length (generateActionChecklist decision ticket) = 6%nat.
Proof.
  rewrite generateActionChecklist_cases. cbv zeta.
  destruct decision;
    destruct (String.eqb (severity ticket) "critical");
    destruct (String.eqb (channel ticket) "mobile_app"); split; reflexivity.
Qed.

(** NaN absorbs an addition. *)
Lemma add_nan_l (y : float) : (nan + y)%float = nan.
Proof. apply Prim2SF_inj. rewrite add_spec. reflexivity. Qed.

(** C4 on the program: when the service gives its confidence as the JSON
    string "high", the helper's clamp [Math.max(0, Math.min(1, "high"))] is
    NaN, the assessment is handed on with that confidence, and for every
    ticket the confidence of the result is NaN: it is not in [0.5, 1.0] and
    the result does not pass [responseSchema]. *)
Theorem word_confidence_escapes_range (ticket : Ticket) :
  analyzeTicketWithAI wordConfidenceReply ticket
  = Returns (Some {| recommendation := "ai_code_remediation";
                     confidence := nan;
                     reasoning := "Database errors" |})
  /\ exists r,
      classifyTicket wordConfidenceReply ticket = Returns r
      /\ PrimFloat.is_nan (result_confidence r) = true
      /\ between 0.5 1 (result_confidence r) = false
      /\ validateResponse r = false.
Proof.
  assert (Ha : analyzeTicketWithAI wordConfidenceReply ticket
               = Returns (Some {| recommendation := "ai_code_remediation";
                                  confidence := nan;
                                  reasoning := "Database errors" |}))
    by reflexivity.
  split; [exact Ha|].
  destruct (classifyTicket_returns wordConfidenceReply ticket) as (r & Hr & _ & Hc & _).
  rewrite (assessment_of_helper _ _ _ Ha) in Hc.
  cbn [comparedScores fst snd] in Hc.
  assert (Hai : forall rule, combinedScore
                  {| recommendation := "ai_code_remediation";
                     confidence := nan; reasoning := "Database errors" |}
                  rule ai_code_remediation = nan).
  { intros rule. unfold combinedScore.
    change (0.6 * externalScore _ ai_code_remediation)%float with nan.
    apply add_nan_l. }
  assert (Hvibe : forall rule, combinedScore
                  {| recommendation := "ai_code_remediation";
                     confidence := nan; reasoning := "Database errors" |}
                  rule vibe_coded_troubleshooting = nan).
  { intros rule. unfold combinedScore.
    change (0.6 * externalScore _ vibe_coded_troubleshooting)%float with nan.
    apply add_nan_l. }
  rewrite Hai, Hvibe in Hc.
  change (floorAndRound (scoresBy nan nan (winner nan nan))) with nan in Hc.
  exists r. split; [exact Hr|].
  unfold validateResponse, between. rewrite Hc.
  split; [reflexivity|]. split; [reflexivity|].
  cbn. now rewrite !andb_false_r.
Qed.

End Scenarios.

(** ** The external assessment helper *)

Section Adapter.

(** The [catch] of the helper turns every exception into [null]. *)
Lemma analyzeTicketWithAI_total (w : World) (ticket : Ticket) :
  exists a, analyzeTicketWithAI w ticket = Returns a.
Proof.
  unfold analyzeTicketWithAI. destruct (noApiKey w); [now exists None|].
  destruct (analyzeBody w ticket) as [a|e]; cbn; eauto.
Qed.

(** With a credential, the helper returns [null] as soon as the body of its
    [try] raises. *)
Lemma analyzeTicketWithAI_absorbs (w : World) (ticket : Ticket) (e : Exception) :
  analyzeBody w ticket = Throws e -> analyzeTicketWithAI w ticket = Returns None.
Proof.
  intros H. unfold analyzeTicketWithAI. rewrite H.
  now destruct (noApiKey w).
Qed.

(** Each failure ends the body of the [try] with an exception. *)
Lemma failure_raises (w : World) (ticket : Ticket) :
  AdapterFailure w ticket ->
  noApiKey w = true \/ exists e, analyzeBody w ticket = Throws e.
Proof.
  intros [Hkey | e Hcall | completion Hcall Hempty
          | completion response e Hcall Hcontent Hparse
          | completion response analysis Hcall Hcontent Hparse Hinc].
  - now left.
  - right. exists e. unfold analyzeBody. now rewrite Hcall.
  - right. unfold analyzeBody. rewrite Hcall. cbn [bind].
    destruct (firstContent completion) as [response|]; [|eauto].
    cbn in Hempty. rewrite Hempty. cbn. eauto.
  - right. unfold analyzeBody. rewrite Hcall. cbn [bind]. rewrite Hcontent.
    destruct (truthyString response); cbn; [|eauto].
    rewrite Hparse. cbn. eauto.
  - right. unfold analyzeBody. rewrite Hcall. cbn [bind]. rewrite Hcontent.
    destruct (truthyString response); cbn; [|eauto].
    rewrite Hparse. cbn [bind].
    destruct analysis as [[|b|f|s]| |o]; cbn; eauto.
    cbn in Hinc. rewrite Hinc. cbn. eauto.
Qed.

(** C6: the helper never raises: it always returns, and it returns [null]
    when there is no credential, when the call is rejected (network failure,
    timeout), when the reply is empty or is not JSON, and when the payload
    is incomplete.  Whenever it returns [null], [classifyTicket] returns a
    result of the fallback branch: no assessment used, the decision of the
    rule scores, a confidence between 0.5 and 1, and a result that passes
    [responseSchema].  [classifyTicket] returns in every case. *)
Theorem adapter_failures_absorbed (w : World) (ticket : Ticket) :
  (exists a, analyzeTicketWithAI w ticket = Returns a)
  /\ (AdapterFailure w ticket -> analyzeTicketWithAI w ticket = Returns None)
  /\ (analyzeTicketWithAI w ticket = Returns None ->
      exists r,
        classifyTicket w ticket = Returns r
        /\ ai_analysis_used (metadata r) = false
        /\ decision r = winner (ruleScores ticket ai_code_remediation)
                               (ruleScores ticket vibe_coded_troubleshooting)
        /\ between 0.5 1 (result_confidence r) = true
        /\ validateResponse r = true)
  /\ (exists r, classifyTicket w ticket = Returns r).
Proof.
  split; [apply analyzeTicketWithAI_total|]. split.
  { intros Hf. destruct (failure_raises w ticket Hf) as [Hkey|[e He]].
    - unfold analyzeTicketWithAI. now rewrite Hkey.
    - exact (analyzeTicketWithAI_absorbs w ticket e He). }
  split.
  { intros Hnull.
    destruct (classifyTicket_returns w ticket) as (r & Hr & Hd & Hc & Hs & Hn & Hu).
    rewrite (assessment_of_helper _ _ _ Hnull) in Hd, Hc, Hs, Hn, Hu.
    cbn [comparedScores fst snd] in Hd, Hc, Hs, Hn.
    rewrite scoresBy_ruleScores in Hc.
    destruct (rule_only_confidence_range ticket) as [Hhalf Hunit].
    exists r. split; [exact Hr|]. split; [exact Hu|]. split; [exact Hd|].
    split; [now rewrite Hc|].
    unfold validateResponse. rewrite Hs, Hc, Hn.
    unfold between in Hunit. apply andb_true_iff in Hunit as [H0 H1].
    rewrite H0, H1.
    destruct (checklist_valid
                (winner (ruleScores ticket ai_code_remediation)
                        (ruleScores ticket vibe_coded_troubleshooting)) ticket)
      as [Hlen Hsix].
    rewrite Hlen, Hsix.
    now destruct (winner _ _). }
  destruct (classifyTicket_returns w ticket) as (r & Hr & _). now exists r.
Qed.

End Adapter.

(** ** The confidence range with an assessment *)

Section ConfidenceRange.



Lemma between_order (x : float) :
  between 0 1 x = true -> finite x = true /\ (0 <= B2R x <= 1)%R.
Proof.
  intros H.
  assert (Hf : finite x = true) by (apply (between_finite 0 1); auto).
  unfold between in H. apply andb_true_iff in H as [H0 H1].
  apply leb_order in H0, H1; auto. rewrite B2R_0 in H0. rewrite B2R_1 in H1. auto.
Qed.

(** With a confidence and a rule score between 0 and 1, each combined score
    is finite and at most 1.001. *)
Lemma combinedScore_bound (a : Analysis) (rule : Category -> float) (c : Category) :
  between 0 1 (confidence a) = true ->
  between 0 1 (rule c) = true ->
  finite (combinedScore a rule c) = true
  /\ (B2R (combinedScore a rule c) <= 1001 / 1000)%R.
Proof.
  intros Hc Hr.
  destruct (between_order _ Hc) as (Hcf & Hc0 & Hc1).
  destruct (between_order _ Hr) as (Hrf & Hr0 & Hr1).
  assert (F1 : finite 1 = true) by reflexivity.
  assert (F06 : finite 0.6 = true) by reflexivity.
  assert (F04 : finite 0.4 = true) by reflexivity.
  (* the technical external score *)
  assert (Ht : exists t, externalScore a ai_code_remediation = t
                         /\ finite t = true /\ (- tol <= B2R t <= 1 + tol)%R).
  { unfold externalScore.
    destruct (String.eqb (recommendation a) "ai_code_remediation").
    - eexists. split; [reflexivity|]. split; [exact Hcf|]. unfold tol. lra.
    - destruct (sub_error 1 (confidence a) F1 Hcf) as [Hf He].
      { rewrite B2R_1. apply Rabs_le. lra. }
      rewrite B2R_1 in He. apply Rabs_le_inv in He.
      eexists. split; [reflexivity|]. split; [exact Hf|]. unfold tol in *. lra. }
  destruct Ht as (t & Ht & Htf & Ht0 & Ht1).
  (* the external score of [c] *)
  assert (He : exists x, externalScore a c = x
                         /\ finite x = true /\ (- 2 * tol <= B2R x <= 1 + 2 * tol)%R).
  { destruct c.
    - exists t. unfold tol in *. repeat split; try assumption; lra.
    - change (externalScore a vibe_coded_troubleshooting)
        with (1 - externalScore a ai_code_remediation)%float.
      rewrite Ht.
      destruct (sub_error 1 t F1 Htf) as [Hf He].
      { rewrite B2R_1. apply Rabs_le. unfold tol in *. lra. }
      rewrite B2R_1 in He. apply Rabs_le_inv in He.
      eexists. split; [reflexivity|]. split; [exact Hf|]. unfold tol in *. lra. }
  destruct He as (x & Hx & Hxf & Hx0 & Hx1).
  unfold combinedScore. rewrite Hx.
  destruct (mul_error 0.6 x F06 Hxf) as [Hpf Hp].
  { rewrite B2R_06. apply Rabs_le. unfold tol in *. lra. }
  destruct (mul_error 0.4 (rule c) F04 Hrf) as [Hqf Hq].
  { rewrite B2R_04. apply Rabs_le. lra. }
  rewrite B2R_06 in Hp. rewrite B2R_04 in Hq.
  apply Rabs_le_inv in Hp, Hq. unfold tol in *.
  destruct (add_error _ _ Hpf Hqf) as [Hsf Hs].
  { apply Rabs_le. lra. }
  apply Rabs_le_inv in Hs. unfold tol in *.
  split; [exact Hsf|]. lra.
Qed.

Lemma rule_score_range (ticket : Ticket) (c : Category) :
  between 0 1 (ruleScores ticket c) = true.
Proof.
  unfold ruleScores. rewrite calculateRuleBasedScore_scoreOf.
  pose proof (for_all_inputs c _ (scoreOf_specFormula c) ticket) as H.
  cbv beta in H. now apply andb_true_iff in H.
Qed.

Lemma clamp_nan (f : float) :
  PrimFloat.is_nan f = true -> Math_max 0 (Math_min 1 f) = nan.
Proof.
  intros H. unfold Math_min. rewrite H, orb_true_r. reflexivity.
Qed.

(** An assessment that the helper returns comes from a complete payload:
    the recommendation and the reasoning are its members, the confidence is
    the clamp of its confidence member. *)
Lemma helper_success (w : World) (ticket : Ticket) (a : Analysis) :
  analyzeTicketWithAI w ticket = Returns (Some a) ->
  exists completion response o v,
    create w (ticketContext ticket) = Returns completion
    /\ firstContent completion = Some response
    /\ JSON_parse w response = Returns (JObject o)
    /\ member_recommendation o = Some (recommendation a)
    /\ member_confidence o = Some v
    /\ member_reasoning o = Some (reasoning a)
    /\ truthyScalar v = true
    /\ confidence a = Math_max 0 (Math_min 1 (ToNumber v)).
Proof.
  unfold analyzeTicketWithAI. destruct (noApiKey w); [discriminate|].
  unfold analyzeBody.
  destruct (create w (ticketContext ticket)) as [completion|e] eqn:Hcall; [|discriminate].
  cbn [bind]. destruct (firstContent completion) as [response|] eqn:Hcontent; [|discriminate].
  destruct (truthyString response); cbn [negb]; [|discriminate].
  destruct (JSON_parse w response) as [analysis|e] eqn:Hparse; [|discriminate].
  cbn [bind].
  destruct analysis as [[|b|f|s]| |o]; cbn [readMembers bind]; try discriminate.
  destruct (member_recommendation o) as [rec|] eqn:Hrec; [|discriminate].
  destruct (member_confidence o) as [v|] eqn:Hconf;
    [|cbn; rewrite ?orb_true_r; discriminate].
  destruct (member_reasoning o) as [rsn|] eqn:Hrsn;
    [|cbn; rewrite ?orb_true_r; discriminate].
  cbn [truthyMember].
  destruct (truthyString rec); cbn [negb orb]; [|discriminate].
  destruct (truthyScalar v) eqn:Hv; cbn [negb orb]; [|discriminate].
  destruct (truthyString rsn); cbn [negb]; [|discriminate].
  cbn [try_catch]. intros H. injection H as <-.
  exists completion, response, o, v. cbn [recommendation confidence reasoning].
  repeat split; try assumption; reflexivity.
Qed.

Lemma assessment_from_helper (w : World) (ticket : Ticket) (a : Analysis) :
  assessment w ticket = Some a -> analyzeTicketWithAI w ticket = Returns (Some a).
Proof.
  unfold assessment, innerTry.
  destruct (analyzeTicketWithAI w ticket) as [[a'|]|e]; cbn; congruence.
Qed.

(** The confidence of an assessment is NaN or lies between 0 and 1. *)
Lemma assessment_confidence (w : World) (ticket : Ticket) (a : Analysis) :
  assessment w ticket = Some a ->
  PrimFloat.is_nan (confidence a) = false ->
  between 0 1 (confidence a) = true.
Proof.
  intros Ha Hn. apply assessment_from_helper in Ha.
  destruct (helper_success w ticket a Ha) as (_ & _ & _ & v & _ & _ & _ & _ & _ & _ & _ & Hc).
  rewrite Hc in Hn |- *.
  destruct (PrimFloat.is_nan (ToNumber v)) eqn:Hv.
  - rewrite (clamp_nan _ Hv) in Hn. discriminate Hn.
  - now apply clamp_range.
Qed.





End ConfidenceRange.

(** ** Decisions by the rules alone *)

Section RuleOnly.

Lemma channel_exclusive (ticket : Ticket) :
  channelPreferred ticket ai_code_remediation
  && channelPreferred ticket vibe_coded_troubleshooting = false.
Proof.
  unfold channelPreferred, arrayIncludes. cbn [CLASSIFICATION_RULES channels existsb].
  destruct (String.eqb_spec (channel ticket) "api") as [->|_]; [reflexivity|].
  destruct (String.eqb_spec (channel ticket) "mobile_app") as [->|_]; [reflexivity|].
  destruct (String.eqb_spec (channel ticket) "web_app") as [->|_]; [reflexivity|].
  destruct (String.eqb_spec (channel ticket) "integration") as [->|_]; reflexivity.
Qed.

Lemma severity_exclusive (ticket : Ticket) :
  severityPreferred ticket ai_code_remediation
  && severityPreferred ticket vibe_coded_troubleshooting = false.
Proof.
  unfold severityPreferred, arrayIncludes. cbn [CLASSIFICATION_RULES severities existsb].
  destruct (String.eqb_spec (severity ticket) "high") as [->|_]; [reflexivity|].
  destruct (String.eqb_spec (severity ticket) "critical") as [->|_]; reflexivity.
Qed.

Lemma agreeing_inputs_decide :
  forallb (fun i => forallb (fun j =>
      implb (agreeOn ai_code_remediation i j)
            (Category_eqb (winner (scoreOf ai_code_remediation i)
                                  (scoreOf vibe_coded_troubleshooting j))
                          ai_code_remediation)
      && implb (agreeOn vibe_coded_troubleshooting i j)
               (Category_eqb (winner (scoreOf ai_code_remediation i)
                                     (scoreOf vibe_coded_troubleshooting j))
                             vibe_coded_troubleshooting))
    (scoreInputs vibe_coded_troubleshooting))
    (scoreInputs ai_code_remediation) = true.
Proof. vm_compute. reflexivity. Qed.

Lemma Category_eqb_eq (a b : Category) : Category_eqb a b = true -> a = b.
Proof. destruct a, b; cbn; congruence. Qed.

(** X3: without an assessment, a ticket whose channel and severity are both
    preferred by one classification is decided for that classification,
    whatever its summary says: the keywords weigh 0.4 at most and cannot
    outweigh the 0.6 of the two other signals. *)
Theorem agreeing_signals_decide (w : World) (ticket : Ticket) (c : Category) :
  assessment w ticket = None ->
  channelPreferred ticket c = true ->
  severityPreferred ticket c = true ->
  exists r, classifyTicket w ticket = Returns r /\ decision r = c.
Proof.
  intros Ha Hch Hsev.
  destruct (classifyTicket_returns w ticket) as (r & Hr & Hd & _).
  rewrite Ha in Hd. cbn [comparedScores fst snd] in Hd.
  exists r. split; [exact Hr|]. rewrite Hd.
  pose proof (for_all_input_pairs _ agreeing_inputs_decide ticket) as H.
  cbv beta in H. apply andb_true_iff in H as [Hai Hvibe].
  unfold ruleScores. rewrite !calculateRuleBasedScore_scoreOf.
  pose proof (channel_exclusive ticket) as Hcx.
  pose proof (severity_exclusive ticket) as Hsx.
  destruct c.
  - apply Category_eqb_eq.
    rewrite Hch in Hcx. rewrite Hsev in Hsx. cbn [andb] in Hcx, Hsx.
    unfold inputsOf, agreeOn in Hai |- *. rewrite Hch, Hsev, Hcx, Hsx in Hai |- *.
    exact Hai.
  - apply Category_eqb_eq.
    rewrite Hch in Hcx. rewrite Hsev in Hsx. rewrite andb_true_r in Hcx, Hsx.
    unfold inputsOf, agreeOn in Hvibe |- *. rewrite Hch, Hsev, Hcx, Hsx in Hvibe |- *.
    exact Hvibe.
Qed.

(** Scenario 2 is a phone ticket of medium severity. *)
Lemma agreeing_signals_decide_witness :
  assessment noCredential scenario2 = None
  /\ channelPreferred scenario2 vibe_coded_troubleshooting = true
  /\ severityPreferred scenario2 vibe_coded_troubleshooting = true
  /\ exists r, classifyTicket noCredential scenario2 = Returns r
               /\ decision r = vibe_coded_troubleshooting.
Proof.
  split; [reflexivity|]. split; [reflexivity|]. split; [reflexivity|].
  exact (agreeing_signals_decide noCredential scenario2 vibe_coded_troubleshooting
           eq_refl eq_refl eq_refl).
Defined.

End RuleOnly.

(** ** The shape of a result *)

Section ResultShape.

(** The floor and the rounding turn every finite score that is at most
    1.001 into a whole number of hundredths from 50 to 100. *)
Lemma floorAndRound_hundredth (x : float) :
  finite x = true -> (B2R x <= 1001 / 1000)%R ->
  exists n, (50 <= n <= 100)%Z /\ floorAndRound x = (ofZ n / 100)%float.
Proof.
  intros Hx Hle. unfold floorAndRound.
  destruct (Math_max_half x Hx) as (Hm & Hlo & Hhi).
  assert (Hmax : (Rmax (B2R x) (/ 2) <= 1001 / 1000)%R) by (apply Rmax_lub; lra).
  assert (H100 : finite 100 = true) by reflexivity.
  destruct (mul_error (Math_max x 0.5) 100 Hm H100) as [Hy Herr].
  { rewrite B2R_100. apply Rabs_le. lra. }
  rewrite B2R_100 in Herr. apply Rabs_le_inv in Herr. unfold tol in Herr.
  destruct (Math_round_range _ Hy) as (n & Hn & ->); [lra|].
  now exists n.
Qed.

(** The score that wins the comparison is finite and at most 1.001 whenever
    the assessment is absent or has a confidence between 0 and 1. *)
Lemma winning_score_bound (ticket : Ticket) (aiAnalysis : option Analysis) :
  match aiAnalysis with
  | Some a => between 0 1 (confidence a) = true
  | None => True
  end ->
  let cs := comparedScores (ruleScores ticket ai_code_remediation)
                           (ruleScores ticket vibe_coded_troubleshooting) aiAnalysis in
  finite (scoresBy (fst cs) (snd cs) (winner (fst cs) (snd cs))) = true
  /\ (B2R (scoresBy (fst cs) (snd cs) (winner (fst cs) (snd cs))) <= 1001 / 1000)%R.
Proof.
  intros Hconf. cbv zeta. destruct aiAnalysis as [a|]; cbn [comparedScores fst snd].
  - rewrite scoresBy_combinedScore.
    apply combinedScore_bound; [exact Hconf|].
    rewrite scoresBy_ruleScores. apply rule_score_range.
  - rewrite scoresBy_ruleScores.
    destruct (between_order _ (rule_score_range ticket
               (winner (ruleScores ticket ai_code_remediation)
                       (ruleScores ticket vibe_coded_troubleshooting)))) as (Hf & _ & H1).
    split; [exact Hf|lra].
Qed.

(** X4: whenever the assessment is absent or its confidence is a number,
    the confidence of the result is a whole number of hundredths: [n / 100]
    for an integer [n] from 50 to 100. *)
Theorem confidence_two_decimals (w : World) (ticket : Ticket) :
  (forall a, assessment w ticket = Some a -> PrimFloat.is_nan (confidence a) = false) ->
  exists r n,
    classifyTicket w ticket = Returns r
    /\ (50 <= n <= 100)%Z
    /\ result_confidence r = (ofZ n / 100)%float.
Proof.
  intros Hnum.
  destruct (classifyTicket_returns w ticket) as (r & Hr & _ & Hc & _).
  destruct (winning_score_bound ticket (assessment w ticket)) as [Hf Hb].
  { destruct (assessment w ticket) as [a|] eqn:Ha; [|exact I].
    exact (assessment_confidence w ticket a Ha (Hnum a eq_refl)). }
  destruct (floorAndRound_hundredth _ Hf Hb) as (n & Hn & Hval).
  exists r, n. split; [exact Hr|]. split; [exact Hn|]. now rewrite Hc.
Qed.

(** Scenario 2 without a credential has no assessment at all. *)
Lemma confidence_two_decimals_witness :
  (forall a, assessment noCredential scenario2 = Some a ->
             PrimFloat.is_nan (confidence a) = false)
  /\ exists r n,
      classifyTicket noCredential scenario2 = Returns r
      /\ (50 <= n <= 100)%Z
      /\ result_confidence r = (ofZ n / 100)%float.
Proof.
  assert (H : forall a, assessment noCredential scenario2 = Some a ->
                        PrimFloat.is_nan (confidence a) = false)
    by (intros a Ha; discriminate Ha).
  split; [exact H|].
  exact (confidence_two_decimals noCredential scenario2 H).
Defined.

Lemma sub_nan_r (x : float) : (x - nan)%float = nan.
Proof.
  apply Prim2SF_inj. rewrite sub_spec.
  change (Prim2SF nan) with S754_nan. now destruct (Prim2SF x).
Qed.





End ResultShape.

(** ** The edits of the checklist *)

Section PlannerEdits.

(** X6: the checklist starts with the escalation exactly when the severity
    is critical; it holds "Test fix on multiple mobile platforms" exactly
    when the channel is mobile_app and the decision ai_code_remediation, and
    then at index 3 (counted behind the escalation when there is one); with
    neither edit the checklist is the list of base actions. *)
Theorem checklist_edits (decision : Category) (ticket : Ticket) :
  (nth_error (generateActionChecklist decision ticket) 0
   = Some "Escalate to senior team immediately"
   <-> severity ticket = "critical")
  /\ (In "Test fix on multiple mobile platforms" (generateActionChecklist decision ticket)
      <-> channel ticket = "mobile_app" /\ decision = ai_code_remediation)
  /\ (channel ticket = "mobile_app" -> decision = ai_code_remediation ->
      nth_error (generateActionChecklist decision ticket) 3
      = Some "Test fix on multiple mobile platforms")
  /\ (severity ticket <> "critical" ->
      (channel ticket <> "mobile_app" \/ decision <> ai_code_remediation) ->
      generateActionChecklist decision ticket = baseActions decision).
Proof.
  rewrite generateActionChecklist_cases. cbv zeta.
  destruct (String.eqb_spec (severity ticket) "critical") as [Hs|Hs];
    destruct (String.eqb_spec (channel ticket) "mobile_app") as [Hc|Hc];
    destruct decision; cbn [nth_error baseActions];
    repeat split; intros; try reflexivity; try assumption; try congruence;
    try discriminate; try tauto;
    try match goal with
        | H : In _ _ |- _ =>
            cbn in H; repeat (destruct H as [H|H]; [discriminate H|]); destruct H
        | H : _ /\ _ |- _ => destruct H; congruence
        | |- In _ _ => cbn; tauto
        | H : _ \/ _ |- _ => destruct H; congruence
        end.
Qed.

End PlannerEdits.

(** ** Keywords and the text of the summary *)

Section Keywords.

Lemma toLowerCase_append (s1 s2 : string) :
  toLowerCase (s1 ++ s2) = toLowerCase s1 ++ toLowerCase s2.
Proof. induction s1 as [|c s1 IH]; cbn; [reflexivity|now rewrite IH]. Qed.

Lemma startsWith_append (s p rest : string) :
  startsWith s p = true -> startsWith (s ++ rest) p = true.
Proof.
  revert p. induction s as [|c s IH]; intros [|a p]; cbn; intros H;
    try discriminate H; try (destruct rest; reflexivity).
  apply andb_true_iff in H as [Hc Hp].
  now rewrite Hc, (IH _ Hp).
Qed.

Lemma includes_unfold (s p : string) :
  includes s p =
  startsWith s p || match s with EmptyString => false | String _ r => includes r p end.
Proof. destruct s; reflexivity. Qed.

Lemma includes_append_r (s p rest : string) :
  includes s p = true -> includes (s ++ rest) p = true.
Proof.
  induction s as [|c s IH]; intros H; rewrite includes_unfold in H;
    rewrite (includes_unfold (_ ++ rest)).
  - rewrite orb_false_r in H.
    now rewrite (startsWith_append _ _ rest H).
  - apply orb_true_iff in H as [H|H].
    + now rewrite (startsWith_append _ _ rest H).
    + change (String c s ++ rest) with (String c (s ++ rest)).
      cbv beta iota. rewrite (IH H). apply orb_true_r.
Qed.

Lemma includes_append_l (s p before : string) :
  includes s p = true -> includes (before ++ s) p = true.
Proof.
  intros H. induction before as [|c before IH]; cbn; [exact H|].
  rewrite IH. apply orb_true_r.
Qed.

Lemma filter_length_mono {A} (f g : A -> bool) (l : list A) :
  (forall x, f x = true -> g x = true) ->
  (List.length (filter f l) <= List.length (filter g l))%nat.
Proof.
  intros Hfg. induction l as [|x l IH]; cbn; [lia|].
  destruct (f x) eqn:Hf.
  - rewrite (Hfg x Hf). cbn. lia.
  - destruct (g x); cbn; lia.
Qed.

(** Text around the summary only adds matched keywords. *)
Lemma matchedKeywords_mono (ticket : Ticket) (before after : string) (c : Category) :
  (matchedKeywords ticket c
   <= matchedKeywords (withSummary ticket (before ++ summary ticket ++ after)) c)%nat.
Proof.
  unfold matchedKeywords. apply filter_length_mono. intros k Hk.
  cbn [withSummary summary]. rewrite !toLowerCase_append.
  now apply includes_append_l, includes_append_r.
Qed.

(** The rule score grows with the number of matched keywords. *)
Lemma scoreOf_mono (c : Category) :
  forallb (fun i => forallb (fun k' =>
      let '(k, ch, sev) := i in
      implb (k <=? k')%nat (scoreOf c (k, ch, sev) <=? scoreOf c (k', ch, sev))%float)
    (seq 0 (S (totalKeywords c)))) (scoreInputs c) = true.
Proof. destruct c; vm_compute; reflexivity. Qed.

(** X7: putting text before or after the summary of a ticket never lowers
    a rule score: every keyword that matched still matches, and the score
    grows with the number of matches. *)
Theorem more_text_never_lowers_score
  (ticket : Ticket) (before after : string) (c : Category) :
  (calculateRuleBasedScore ticket c
   <=? calculateRuleBasedScore
         (withSummary ticket (before ++ summary ticket ++ after)) c)%float = true.
Proof.
  set (ticket' := withSummary ticket (before ++ summary ticket ++ after)).
  rewrite !calculateRuleBasedScore_scoreOf.
  pose proof (for_all_inputs c _ (scoreOf_mono c) ticket) as H.
  cbv beta in H. rewrite forallb_forall in H.
  specialize (H (matchedKeywords ticket' c)).
  assert (Hin : In (matchedKeywords ticket' c) (seq 0 (S (totalKeywords c)))).
  { apply in_seq. pose proof (matchedKeywords_le ticket' c). lia. }
  apply H in Hin. unfold inputsOf in Hin |- *.
  change (channelPreferred ticket' c) with (channelPreferred ticket c).
  change (severityPreferred ticket' c) with (severityPreferred ticket c).
  pose proof (matchedKeywords_mono ticket before after c) as Hle.
  fold ticket' in Hle. apply Nat.leb_le in Hle. now rewrite Hle in Hin.
Qed.

End Keywords.

(** ** A confident assessment *)

Section Dominance.

Lemma B2R_084 : B2R 0.84 = (7566047373982433 / 9007199254740992)%R.
Proof.
  unfold B2R. change (Prim2SF 0.84) with (S754_finite false 7566047373982433 (-53)).
  cbn [SF2R]. rewrite bpow_Zneg.
  change (2 ^ 53)%Z with 9007199254740992%Z. lra.
Qed.

Lemma lt_order_ltb (x y : float) :
  finite x = true -> finite y = true ->
  (B2R x < B2R y)%R -> (x <? y)%float = true.
Proof.
  intros Hx Hy Hlt. destruct (x <? y)%float eqn:E; [reflexivity|].
  pose proof (not_ltb_order x y Hx Hy E). lra.
Qed.

Lemma le_order_not_ltb (x y : float) :
  finite x = true -> finite y = true ->
  (B2R y <= B2R x)%R -> (x <? y)%float = false.
Proof.
  intros Hx Hy Hle. destruct (x <? y)%float eqn:E; [|reflexivity].
  pose proof (ltb_order x y Hx Hy E). lra.
Qed.

(** The confidence of an assessment is NaN itself or lies between 0 and 1. *)
Lemma assessment_confidence_cases (w : World) (ticket : Ticket) (a : Analysis) :
  assessment w ticket = Some a ->
  confidence a = nan \/ between 0 1 (confidence a) = true.
Proof.
  intros Ha. apply assessment_from_helper in Ha.
  destruct (helper_success w ticket a Ha) as (_ & _ & _ & v & _ & _ & _ & _ & _ & _ & _ & Hc).
  rewrite Hc. destruct (PrimFloat.is_nan (ToNumber v)) eqn:Hv.
  - left. now apply clamp_nan.
  - right. now apply clamp_range.
Qed.

(** With a confidence of at least 0.84, the external score of the
    recommended classification is at least 0.84 and the other one at most
    0.16, up to the rounding of the subtractions. *)
Lemma externalScore_sides (a : Analysis) :
  between 0 1 (confidence a) = true ->
  (84 / 100 - tol <= B2R (confidence a))%R ->
  finite (externalScore a (recommended a)) = true
  /\ finite (externalScore a (otherCategory (recommended a))) = true
  /\ (84 / 100 - 3 * tol <= B2R (externalScore a (recommended a)) <= 1 + 3 * tol)%R
  /\ (- (3 * tol) <= B2R (externalScore a (otherCategory (recommended a)))
      <= 16 / 100 + 3 * tol)%R.
Proof.
  intros Hc Hhigh.
  destruct (between_order _ Hc) as (Hcf & Hc0 & Hc1).
  assert (F1 : finite 1 = true) by reflexivity.
  destruct (sub_error 1 (confidence a) F1 Hcf) as [Hsf Hs].
  { rewrite B2R_1. apply Rabs_le. lra. }
  rewrite B2R_1 in Hs. apply Rabs_le_inv in Hs.
  unfold recommended, externalScore.
  destruct (String.eqb (recommendation a) "ai_code_remediation");
    cbn [otherCategory]; unfold tol in *.
  - repeat split; try assumption; lra.
  - destruct (sub_error 1 (1 - confidence a) F1 Hsf) as [Htf Ht].
    { rewrite B2R_1. apply Rabs_le. unfold tol. lra. }
    rewrite B2R_1 in Ht. apply Rabs_le_inv in Ht. unfold tol in *.
    repeat split; try assumption; lra.
Qed.

(** The weighted sum of an external score and a rule score, with its
    rounding errors. *)
Lemma weighted_sum_error (x r : float) :
  finite x = true -> (- 1 <= B2R x <= 2)%R ->
  between 0 1 r = true ->
  finite (0.6 * x + 0.4 * r) = true
  /\ (Rabs (B2R (0.6 * x + 0.4 * r) - (6 / 10 * B2R x + 4 / 10 * B2R r)) <= 5 * tol)%R.
Proof.
  intros Hxf Hx Hr.
  destruct (between_order _ Hr) as (Hrf & Hr0 & Hr1).
  assert (F06 : finite 0.6 = true) by reflexivity.
  assert (F04 : finite 0.4 = true) by reflexivity.
  destruct (mul_error 0.6 x F06 Hxf) as [Hpf Hp].
  { rewrite B2R_06. apply Rabs_le. lra. }
  destruct (mul_error 0.4 r F04 Hrf) as [Hqf Hq].
  { rewrite B2R_04. apply Rabs_le. lra. }
  rewrite B2R_06 in Hp. rewrite B2R_04 in Hq.
  apply Rabs_le_inv in Hp, Hq. unfold tol in *.
  destruct (add_error _ _ Hpf Hqf) as [Hsf Hs].
  { apply Rabs_le. lra. }
  apply Rabs_le_inv in Hs. unfold tol in *.
  split; [exact Hsf|]. apply Rabs_le. lra.
Qed.

(** With a confidence of at least 0.84 the combined score of the
    recommended classification is the larger one, whatever the rule scores
    between 0 and 1. *)
Lemma recommended_wins (a : Analysis) (rule : Category -> float) :
  between 0 1 (confidence a) = true ->
  (0.84 <=? confidence a)%float = true ->
  (forall c, between 0 1 (rule c) = true) ->
  winner (combinedScore a rule ai_code_remediation)
         (combinedScore a rule vibe_coded_troubleshooting) = recommended a.
Proof.
  intros Hc Hhigh Hrule.
  destruct (between_order _ Hc) as (Hcf & Hc0 & Hc1).
  apply leb_order in Hhigh; [|reflexivity|exact Hcf]. rewrite B2R_084 in Hhigh.
  destruct (externalScore_sides a Hc) as (Hrf & Hof & Hr & Ho).
  { unfold tol. lra. }
  unfold tol in Hr, Ho.
  destruct (weighted_sum_error _ (rule (recommended a)) Hrf) as [Hwf Hw];
    [lra|apply Hrule|].
  destruct (weighted_sum_error _ (rule (otherCategory (recommended a))) Hof) as [Hlf Hl];
    [lra|apply Hrule|].
  apply Rabs_le_inv in Hw, Hl. unfold tol in Hw, Hl.
  destruct (between_order _ (Hrule (recommended a))) as (_ & Hr0 & Hr1).
  destruct (between_order _ (Hrule (otherCategory (recommended a)))) as (_ & Ho0 & Ho1).
  fold (combinedScore a rule (recommended a)) in Hwf, Hw.
  fold (combinedScore a rule (otherCategory (recommended a))) in Hlf, Hl.
  unfold winner, gt.
  destruct (recommended a); cbn [otherCategory] in *.
  - rewrite lt_order_ltb; auto. lra.
  - rewrite le_order_not_ltb; auto. lra.
Qed.

(** X8: an assessment with a confidence of at least 0.84 decides the
    ticket: whatever the channel, the severity and the summary, the decision
    is the recommended classification, [ai_code_remediation] for that name
    and [vibe_coded_troubleshooting] for any other recommendation. *)
Theorem confident_assessment_decides (w : World) (ticket : Ticket) (a : Analysis) :
  assessment w ticket = Some a ->
  (0.84 <=? confidence a)%float = true ->
  exists r,
    classifyTicket w ticket = Returns r
    /\ decision r = recommended a
    /\ result_reasoning r = framing (recommended a) ++ reasoning a.
Proof.
  intros Ha Hhigh.
  assert (Hc : between 0 1 (confidence a) = true).
  { destruct (assessment_confidence_cases w ticket a Ha) as [E|E]; [|exact E].
    rewrite E in Hhigh. vm_compute in Hhigh. discriminate Hhigh. }
  destruct (classifyTicket_returns w ticket) as (r & Hr & Hd & _ & Hs & _).
  exists r. split; [exact Hr|].
  rewrite Ha in Hd, Hs. cbn [comparedScores fst snd] in Hd, Hs.
  rewrite (recommended_wins a _ Hc Hhigh) in Hd, Hs;
    try (intros c; rewrite scoresBy_ruleScores; apply rule_score_range).
  split; assumption.
Qed.

(** With the technical reply at confidence 0.85 the second scenario, a
    phone ticket of medium severity about an account, is decided as
    [ai_code_remediation]. *)
Lemma confident_assessment_decides_witness :
  assessment technicalReply scenario2
  = Some {| recommendation := "ai_code_remediation";
            confidence := 0.85;
            reasoning := "Technical issue detected in test environment" |}
  /\ (0.84 <=? 0.85)%float = true
  /\ exists r,
      classifyTicket technicalReply scenario2 = Returns r
      /\ decision r = ai_code_remediation.
Proof.
  split; [reflexivity|]. split; [reflexivity|].
  destruct (confident_assessment_decides technicalReply scenario2
              {| recommendation := "ai_code_remediation";
                 confidence := 0.85;
                 reasoning := "Technical issue detected in test environment" |}
              eq_refl eq_refl)
    as (r & Hr & Hd & _).
  exists r. split; [exact Hr | exact Hd].
Defined.

End Dominance.

(** ** Indicators and rule keywords *)

Section Indicators.

Lemma In_filter_length {A} (f : A -> bool) (l : list A) (x : A) :
  In x l -> f x = true -> (1 <= List.length (filter f l))%nat.
Proof.
  intros Hin Hf. assert (H : In x (filter f l)) by (apply filter_In; auto).
  destruct (filter f l); [destruct H | cbn; lia].
Qed.

(** A rule score is positive as soon as one keyword matches. *)
Lemma scoreOf_positive (c : Category) :
  forallb (fun i => let '(k, _, _) := i in implb (1 <=? k)%nat (0 <? scoreOf c i)%float)
          (scoreInputs c) = true.
Proof. destruct c; vm_compute; reflexivity. Qed.

Lemma keyword_match_positive (ticket : Ticket) (c : Category) (k : string) :
  In k (keywords (CLASSIFICATION_RULES c)) ->
  includes (toLowerCase (summary ticket)) k = true ->
  (0 <? calculateRuleBasedScore ticket c)%float = true.
Proof.
  intros Hin Hk. rewrite calculateRuleBasedScore_scoreOf.
  pose proof (for_all_inputs c _ (scoreOf_positive c) ticket) as H.
  unfold inputsOf in H |- *. cbv beta iota in H.
  assert (Hm : (1 <=? matchedKeywords ticket c)%nat = true).
  { apply Nat.leb_le. unfold matchedKeywords.
    now apply (In_filter_length _ _ k). }
  now rewrite Hm in H.
Qed.

(** X9: every operational indicator found in a ticket is a keyword of the
    operational rules that occurs in the summary, so the operational rule
    score of the ticket is positive; and the rules match at least as many
    keywords as there are indicators. *)
Theorem operational_indicators_count (ticket : Ticket) (k : string) :
  In k (extractOperationalIndicators ticket) ->
  In k (keywords (CLASSIFICATION_RULES vibe_coded_troubleshooting))
  /\ includes (toLowerCase (summary ticket)) k = true
  /\ (0 <? calculateRuleBasedScore ticket vibe_coded_troubleshooting)%float = true
  /\ (List.length (extractOperationalIndicators ticket)
      <= matchedKeywords ticket vibe_coded_troubleshooting)%nat.
Proof.
  intros Hk. unfold extractOperationalIndicators in Hk. cbv zeta in Hk.
  apply filter_In in Hk as [Hin Hinc].
  assert (Hsub : incl operational_keywords
                      (keywords (CLASSIFICATION_RULES vibe_coded_troubleshooting))).
  { intros x Hx. cbn in Hx |- *. intuition auto. }
  split; [now apply Hsub|]. split; [exact Hinc|].
  split; [now apply (keyword_match_positive _ _ k); [apply Hsub|]|].
  unfold extractOperationalIndicators, matchedKeywords. cbv zeta.
  apply NoDup_incl_length.
  - apply NoDup_filter.
    repeat (constructor; [cbn; intuition discriminate|]). constructor.
  - intros x Hx. apply filter_In in Hx as [Hx1 Hx2]. apply filter_In. auto.
Qed.

Lemma operational_indicators_count_witness :
  In "account" (extractOperationalIndicators scenario2)
  /\ (0 <? calculateRuleBasedScore scenario2 vibe_coded_troubleshooting)%float = true
  /\ (List.length (extractOperationalIndicators scenario2)
      <= matchedKeywords scenario2 vibe_coded_troubleshooting)%nat.
Proof.
  assert (H : In "account" (extractOperationalIndicators scenario2))
    by (vm_compute; auto).
  split; [exact H|].
  destruct (operational_indicators_count scenario2 "account" H) as (_ & _ & Hp & Hl).
  split; [exact Hp | exact Hl].
Defined.

(** [server] is an indicator that the rules do not know: a ticket can have
    it and a technical rule score of zero. *)
Lemma server_indicator_without_score :
  extractTechnicalIndicators serverTicket = [ "server" ]
  /\ calculateRuleBasedScore serverTicket ai_code_remediation = 0%float.
Proof. split; vm_compute; reflexivity. Qed.

(** X10: a technical indicator other than [server] is a keyword of the
    technical rules that occurs in the summary, and the technical rule score
    of the ticket is then positive. *)
Theorem technical_indicators_but_server (ticket : Ticket) (k : string) :
  In k (extractTechnicalIndicators ticket) ->
  k <> "server" ->
  In k (keywords (CLASSIFICATION_RULES ai_code_remediation))
  /\ includes (toLowerCase (summary ticket)) k = true
  /\ (0 <? calculateRuleBasedScore ticket ai_code_remediation)%float = true.
Proof.
  intros Hk Hns. unfold extractTechnicalIndicators in Hk. cbv zeta in Hk.
  apply filter_In in Hk as [Hin Hinc].
  assert (Hrule : In k (keywords (CLASSIFICATION_RULES ai_code_remediation))).
  { cbn in Hin |- *. intuition auto. }
  split; [exact Hrule|]. split; [exact Hinc|].
  now apply (keyword_match_positive _ _ k).
Qed.

Lemma technical_indicators_but_server_witness :
  In "database" (extractTechnicalIndicators scenario3)
  /\ "database" <> "server"
  /\ (0 <? calculateRuleBasedScore scenario3 ai_code_remediation)%float = true.
Proof.
  assert (H : In "database" (extractTechnicalIndicators scenario3))
    by (vm_compute; auto).
  assert (N : "database" <> "server") by discriminate.
  split; [exact H|]. split; [exact N|].
  destruct (technical_indicators_but_server scenario3 "database" H N) as (_ & _ & Hp).
  exact Hp.
Defined.

End Indicators.

(** ** Sanitizing a ticket *)

Section Sanitizer.

Lemma lowerChar_idempotent (c : ascii) : lowerChar (lowerChar c) = lowerChar c.
Proof. destruct c as [[] [] [] [] [] [] [] []]; reflexivity. Qed.

Lemma isWhiteSpace_lowerChar (c : ascii) : isWhiteSpace (lowerChar c) = isWhiteSpace c.
Proof. destruct c as [[] [] [] [] [] [] [] []]; reflexivity. Qed.

Lemma toLowerCase_idempotent (s : string) : toLowerCase (toLowerCase s) = toLowerCase s.
Proof.
  induction s as [|c s IH]; cbn; [reflexivity|].
  now rewrite lowerChar_idempotent, IH.
Qed.

Lemma toLowerCase_trimStart (s : string) :
  toLowerCase (trimStart s) = trimStart (toLowerCase s).
Proof.
  induction s as [|c s IH]; cbn; [reflexivity|].
  rewrite isWhiteSpace_lowerChar. destruct (isWhiteSpace c); [exact IH|reflexivity].
Qed.

Lemma toLowerCase_trimEnd (s : string) :
  toLowerCase (trimEnd s) = trimEnd (toLowerCase s).
Proof.
  induction s as [|c s IH]; cbn; [reflexivity|].
  rewrite <- IH, isWhiteSpace_lowerChar.
  destruct (trimEnd s); cbn; [destruct (isWhiteSpace c)|]; reflexivity.
Qed.

Lemma toLowerCase_trim (s : string) : toLowerCase (trim s) = trim (toLowerCase s).
Proof. unfold trim. now rewrite toLowerCase_trimEnd, toLowerCase_trimStart. Qed.

Lemma trimEnd_unfold (c : ascii) (r : string) :
  trimEnd (String c r) =
  match trimEnd r with
  | EmptyString => if isWhiteSpace c then EmptyString else String c EmptyString
  | r' => String c r'
  end.
Proof. reflexivity. Qed.

Lemma trimEnd_idempotent (s : string) : trimEnd (trimEnd s) = trimEnd s.
Proof.
  induction s as [|c s IH]; [reflexivity|].
  rewrite trimEnd_unfold. destruct (trimEnd s) as [|c' s'] eqn:E.
  - destruct (isWhiteSpace c) eqn:W; [reflexivity|].
    rewrite trimEnd_unfold. cbn [trimEnd]. now rewrite W.
  - rewrite trimEnd_unfold, IH. reflexivity.
Qed.

(** [trimStart] leaves a text that does not start with white space. *)
Lemma trimStart_clean (s : string) :
  match s with
  | EmptyString => True
  | String c _ => isWhiteSpace c = false
  end -> trimStart s = s.
Proof. destruct s as [|c s]; cbn; [reflexivity|]. now intros ->. Qed.

Lemma trimStart_head (s : string) :
  match trimStart s with
  | EmptyString => True
  | String c _ => isWhiteSpace c = false
  end.
Proof.
  induction s as [|c s IH]; cbn; [exact I|].
  destruct (isWhiteSpace c) eqn:W; [exact IH|exact W].
Qed.

Lemma trimEnd_head (s : string) :
  match s with
  | EmptyString => True
  | String c _ => isWhiteSpace c = false
  end ->
  match trimEnd s with
  | EmptyString => True
  | String c _ => isWhiteSpace c = false
  end.
Proof.
  destruct s as [|c s]; [trivial|]. intros W. rewrite trimEnd_unfold, W.
  destruct (trimEnd s); exact W.
Qed.

Lemma trim_idempotent (s : string) : trim (trim s) = trim s.
Proof.
  unfold trim.
  rewrite (trimStart_clean (trimEnd (trimStart s))).
  - apply trimEnd_idempotent.
  - apply trimEnd_head, trimStart_head.
Qed.

Lemma normalize_idempotent (s : string) :
  trim (toLowerCase (trim (toLowerCase s))) = trim (toLowerCase s).
Proof.
  now rewrite toLowerCase_trim, toLowerCase_idempotent, trim_idempotent.
Qed.

(** X11: sanitizing is idempotent: a ticket that has been sanitized is not
    changed by sanitizing it again, at whatever later time, as long as the
    clock text of the first call is not empty. *)
Theorem sanitizeTicket_idempotent (now later : string) (ticket : TicketData) :
  now <> EmptyString ->
  sanitizeTicket later (sanitizeTicket now ticket) = sanitizeTicket now ticket.
Proof.
  intros Hnow. unfold sanitizeTicket.
  cbn [required channel severity summary ticket_id customer_id timestamp tags priority].
  rewrite !normalize_idempotent, trim_idempotent. f_equal.
  - f_equal. destruct (timestamp ticket) as [t|].
    + destruct (truthyString t) eqn:T; [now rewrite T|].
      unfold truthyString. destruct (String.eqb_spec now EmptyString); [contradiction|].
      reflexivity.
    + unfold truthyString. destruct (String.eqb_spec now EmptyString); [contradiction|].
      reflexivity.
  - f_equal. destruct (tags ticket) as [l|]; [|reflexivity].
    rewrite map_map. apply map_ext. intros tag. apply normalize_idempotent.
Qed.

Lemma sanitizeTicket_idempotent_witness :
  "2024-01-01T00:00:00.000Z" <> EmptyString
  /\ sanitizeTicket "2024-06-30T12:00:00.000Z"
       (sanitizeTicket "2024-01-01T00:00:00.000Z" paddedTicket)
     = sanitizeTicket "2024-01-01T00:00:00.000Z" paddedTicket.
Proof.
  assert (H : "2024-01-01T00:00:00.000Z" <> EmptyString) by discriminate.
  split; [exact H|].
  exact (sanitizeTicket_idempotent _ "2024-06-30T12:00:00.000Z" paddedTicket H).
Defined.

(** *** Sanitizing and the rules *)

Lemma whitespace_differs (a c : ascii) :
  isWhiteSpace c = true -> isWhiteSpace a = false -> Ascii.eqb a c = false.
Proof.
  intros Hc Ha. destruct (Ascii.eqb_spec a c) as [->|]; [congruence|reflexivity].
Qed.

Lemma startsWith_empty (s : string) : startsWith s EmptyString = true.
Proof. destruct s; reflexivity. Qed.

Lemma includes_trimStart (s k : string) :
  startsClean k = true -> includes (trimStart s) k = includes s k.
Proof.
  intros Hk. induction s as [|c s IH]; [reflexivity|].
  cbn [trimStart]. destruct (isWhiteSpace c) eqn:W; [|reflexivity].
  rewrite IH, (includes_unfold (String c s)).
  destruct k as [|a k]; [discriminate Hk|]. cbn [startsWith].
  cbn in Hk. apply negb_true_iff in Hk.
  now rewrite (whitespace_differs a c W Hk).
Qed.

Lemma startsWith_trimEnd (s k : string) :
  endsClean k = true -> startsWith (trimEnd s) k = startsWith s k.
Proof.
  revert k. induction s as [|c s IH]; intros k Hk; [reflexivity|].
  destruct k as [|a k]; [now rewrite !startsWith_empty|].
  assert (Htail : startsWith (trimEnd s) k = startsWith s k).
  { destruct k as [|b k]; [now rewrite !startsWith_empty|]. apply IH. exact Hk. }
  rewrite trimEnd_unfold. cbn [startsWith]. rewrite <- Htail.
  destruct (trimEnd s) as [|c' s'] eqn:E; [|reflexivity].
  destruct (isWhiteSpace c) eqn:W; [|reflexivity].
  destruct k as [|b k].
  - cbn in Hk. apply negb_true_iff in Hk.
    now rewrite (whitespace_differs a c W Hk).
  - cbn. now rewrite andb_false_r.
Qed.

Lemma includes_trimEnd (s k : string) :
  endsClean k = true -> includes (trimEnd s) k = includes s k.
Proof.
  intros Hk. induction s as [|c s IH]; [reflexivity|].
  rewrite (includes_unfold (String c s)), <- IH,
    <- (startsWith_trimEnd (String c s) k Hk), trimEnd_unfold.
  destruct (trimEnd s) as [|c' s'] eqn:E; [|reflexivity].
  destruct (isWhiteSpace c); [|reflexivity].
  rewrite (includes_unfold EmptyString). now destruct (startsWith EmptyString k).
Qed.

Lemma includes_trim (s k : string) :
  startsClean k = true -> endsClean k = true -> includes (trim s) k = includes s k.
Proof.
  intros Hs He. unfold trim. now rewrite includes_trimEnd, includes_trimStart.
Qed.

(** No keyword of the rules starts or ends with white space. *)
Lemma keywords_clean (c : Category) (k : string) :
  In k (keywords (CLASSIFICATION_RULES c)) ->
  startsClean k = true /\ endsClean k = true.
Proof.
  assert (H : forallb (fun k => startsClean k && endsClean k)
                      (keywords (CLASSIFICATION_RULES c)) = true)
    by (destruct c; vm_compute; reflexivity).
  rewrite forallb_forall in H. intros Hin. now apply andb_true_iff, H.
Qed.

Lemma filter_ext_in_eq {A} (f g : A -> bool) (l : list A) :
  (forall x, In x l -> f x = g x) -> filter f l = filter g l.
Proof.
  induction l as [|x l IH]; intros H; cbn; [reflexivity|].
  rewrite (H x (or_introl eq_refl)), IH; [reflexivity|].
  intros y Hy. apply H. now right.
Qed.

(** Sanitizing matches the same keywords. *)
Lemma matchedKeywords_sanitizeTicket (now : string) (ticket : TicketData) (c : Category) :
  matchedKeywords (required (sanitizeTicket now ticket)) c
  = matchedKeywords (required ticket) c.
Proof.
  unfold matchedKeywords. f_equal. apply filter_ext_in_eq. intros k Hk.
  cbn [sanitizeTicket required summary].
  destruct (keywords_clean c k Hk) as [Hs He].
  now rewrite toLowerCase_trim, includes_trim.
Qed.

Lemma valid_channel_normal (ch : string) :
  arrayIncludes validChannels ch = true -> trim (toLowerCase ch) = ch.
Proof.
  intros H. apply arrayIncludes_In in H. cbn in H.
  repeat (destruct H as [<-|H]; [reflexivity|]). destruct H.
Qed.

Lemma valid_severity_normal (sev : string) :
  arrayIncludes validSeverities sev = true -> trim (toLowerCase sev) = sev.
Proof.
  intros H. apply arrayIncludes_In in H. cbn in H.
  repeat (destruct H as [<-|H]; [reflexivity|]). destruct H.
Qed.

Lemma length_trimStart (s : string) : (String.length (trimStart s) <= String.length s)%nat.
Proof.
  induction s as [|c s IH]; cbn; [lia|]. destruct (isWhiteSpace c); cbn; lia.
Qed.

Lemma length_trimEnd (s : string) : (String.length (trimEnd s) <= String.length s)%nat.
Proof.
  induction s as [|c s IH]; [cbn; lia|]. rewrite trimEnd_unfold.
  destruct (trimEnd s); [destruct (isWhiteSpace c)|]; cbn in *; lia.
Qed.

Lemma length_trim (s : string) : (String.length (trim s) <= String.length s)%nat.
Proof.
  unfold trim. pose proof (length_trimEnd (trimStart s)). pose proof (length_trimStart s). lia.
Qed.

(** The three required rules of the schema, as every valid object passes
    them. *)
Lemma valid_required_fields (isoDate : string -> bool) (data : TicketData) :
  validateTicketInput isoDate data = true ->
  In (channel (required data)) validChannels
  /\ In (severity (required data)) validSeverities
  /\ (10 <= String.length (summary (required data)) <= 1000)%nat.
Proof.
  unfold validateTicketInput, ticketSchema. intros Hv.
  do 5 (apply andb_true_iff in Hv as [Hv _]).
  apply andb_true_iff in Hv as [Hv Hmax]. apply andb_true_iff in Hv as [Hv Hmin].
  apply andb_true_iff in Hv as [Hch Hsev].
  apply Nat.leb_le in Hmin, Hmax. auto using arrayIncludes_In.
Qed.

Lemma valid_required_normal (isoDate : string -> bool) (data : TicketData) :
  validateTicketInput isoDate data = true ->
  trim (toLowerCase (channel (required data))) = channel (required data)
  /\ trim (toLowerCase (severity (required data))) = severity (required data).
Proof.
  unfold validateTicketInput, ticketSchema. intros Hv.
  do 7 (apply andb_true_iff in Hv as [Hv _]).
  apply andb_true_iff in Hv as [Hch Hsev].
  split; [now apply valid_channel_normal | now apply valid_severity_normal].
Qed.

(** X12: sanitizing a ticket that passes the input validation keeps its
    channel and its severity and both rule scores; when the clock text is a
    date for the schema, the sanitized ticket passes the validation again
    exactly when ten characters of the summary remain after the white space
    around it is gone and no tag has become empty. *)
Theorem sanitizeTicket_valid (isoDate : string -> bool) (now : string)
  (ticket : TicketData) :
  validateTicketInput isoDate ticket = true ->
  isoDate now = true ->
  let sanitized := sanitizeTicket now ticket in
  channel (required sanitized) = channel (required ticket)
  /\ severity (required sanitized) = severity (required ticket)
  /\ (forall c, calculateRuleBasedScore (required sanitized) c
                = calculateRuleBasedScore (required ticket) c)
  /\ validateTicketInput isoDate sanitized
     = (10 <=? String.length (trim (summary (required ticket))))%nat
       && forallb (fun tag => negb (String.eqb (trim (toLowerCase tag)) EmptyString))
                  (match tags ticket with Some tags => tags | None => [] end).
Proof.
  intros Hv Hnow. cbv zeta.
  destruct (valid_required_normal isoDate ticket Hv) as [Ech Esev].
  destruct (valid_required_fields isoDate ticket Hv) as (_ & _ & _ & Hmax).
  split; [exact Ech|]. split; [exact Esev|]. split.
  - intros c. rewrite !calculateRuleBasedScore_scoreOf. unfold inputsOf.
    rewrite matchedKeywords_sanitizeTicket.
    unfold channelPreferred, severityPreferred.
    cbn [sanitizeTicket required channel severity]. now rewrite Ech, Esev.
  - unfold validateTicketInput, ticketSchema in Hv |- *.
    cbn [sanitizeTicket required channel severity summary ticket_id customer_id
         timestamp tags priority Joi_optional].
    rewrite Ech, Esev.
    apply andb_true_iff in Hv as [Hv Hprio]. apply andb_true_iff in Hv as [Hv _].
    apply andb_true_iff in Hv as [Hv Hts]. apply andb_true_iff in Hv as [Hv Hcust].
    apply andb_true_iff in Hv as [Hv Hid]. apply andb_true_iff in Hv as [Hv _].
    apply andb_true_iff in Hv as [Hv _]. apply andb_true_iff in Hv as [Hch Hsev].
    assert (Hts' : isoDate match timestamp ticket with
                           | Some t => if truthyString t then t else now
                           | None => now
                           end = true).
    { destruct (timestamp ticket) as [t|]; [|exact Hnow].
      destruct (truthyString t); [exact Hts|exact Hnow]. }
    assert (Hle : (String.length (trim (summary (required ticket))) <=? 1000)%nat = true).
    { apply Nat.leb_le. pose proof (length_trim (summary (required ticket))). lia. }
    rewrite Hch, Hsev, Hid, Hcust, Hprio, Hts', Hle. cbn [andb].
    rewrite !andb_true_r. f_equal.
    destruct (tags ticket) as [l|]; [|reflexivity].
    induction l as [|tag l IH]; [reflexivity|]. cbn [map forallb].
    now rewrite IH.
Qed.

(** A ticket with a blank tag is valid; sanitized, it is not, although its
    summary stays long enough. *)
Lemma sanitizeTicket_valid_witness :
  validateTicketInput (String.eqb "2024-01-01T00:00:00.000Z") blankTagTicket = true
  /\ String.eqb "2024-01-01T00:00:00.000Z" "2024-01-01T00:00:00.000Z" = true
  /\ validateTicketInput (String.eqb "2024-01-01T00:00:00.000Z")
       (sanitizeTicket "2024-01-01T00:00:00.000Z" blankTagTicket)
     = false.
Proof.
  assert (H : validateTicketInput (String.eqb "2024-01-01T00:00:00.000Z") blankTagTicket
              = true) by reflexivity.
  split; [exact H|]. split; [reflexivity|].
  destruct (sanitizeTicket_valid _ "2024-01-01T00:00:00.000Z" blankTagTicket H eq_refl)
    as (_ & _ & _ & ->).
  reflexivity.
Defined.

End Sanitizer.

(** ** Signals, reasoning and extremes *)

Section Signals.

(** X13: every channel and every severity that the input validation
    accepts is preferred by exactly one classification: on a valid ticket
    each of the two signals counts for one side and not for the other. *)
Theorem valid_ticket_signals (isoDate : string -> bool) (data : TicketData) (c : Category) :
  validateTicketInput isoDate data = true ->
  channelPreferred (required data) c
  = negb (channelPreferred (required data) (otherCategory c))
  /\ severityPreferred (required data) c
     = negb (severityPreferred (required data) (otherCategory c)).
Proof.
  intros Hv. destruct (valid_required_fields isoDate data Hv) as (Hch & Hsev & _).
  unfold channelPreferred, severityPreferred.
  cbn in Hch, Hsev. split.
  - repeat (destruct Hch as [<-|Hch]; [now destruct c|]). destruct Hch.
  - repeat (destruct Hsev as [<-|Hsev]; [now destruct c|]). destruct Hsev.
Qed.

(** Scenario 2, as the object with its three fields, is valid whatever the
    date rule. *)
Lemma valid_ticket_signals_witness :
  validateTicketInput (fun _ => false) (onlyRequired scenario2) = true
  /\ channelPreferred scenario2 vibe_coded_troubleshooting
     = negb (channelPreferred scenario2 ai_code_remediation).
Proof.
  assert (H : validateTicketInput (fun _ => false) (onlyRequired scenario2) = true)
    by reflexivity.
  split; [exact H|].
  exact (proj1 (valid_ticket_signals _ (onlyRequired scenario2)
                  vibe_coded_troubleshooting H)).
Defined.

Lemma startsWith_prefix (p s : string) : startsWith (p ++ s) p = true.
Proof.
  induction p as [|c p IH]; cbn; [apply startsWith_empty|].
  now rewrite Ascii.eqb_refl, IH.
Qed.

(** X14: the reasoning of a result names its decision: it starts with
    [Technical] exactly when the decision is [ai_code_remediation] and with
    [Operational] exactly when it is [vibe_coded_troubleshooting], with an
    assessment and without one, whatever the assessment says. *)
Theorem reasoning_names_decision (w : World) (ticket : Ticket) :
  exists r,
    classifyTicket w ticket = Returns r
    /\ (startsWith (result_reasoning r) "Technical" = true
        <-> decision r = ai_code_remediation)
    /\ (startsWith (result_reasoning r) "Operational" = true
        <-> decision r = vibe_coded_troubleshooting).
Proof.
  destruct (classifyTicket_returns w ticket) as (r & Hr & Hd & _ & Hs & _).
  exists r. split; [exact Hr|]. rewrite Hs, Hd.
  set (d := winner _ _). clearbody d.
  destruct (assessment w ticket) as [a|], d; cbn [framing fallbackReasoning];
    split; split; intros H; try reflexivity; try discriminate H.
Qed.

(** The extremes of the arithmetic of the rule score. *)
Lemma scoreOf_extremes (c : Category) :
  forallb (fun i => let '(k, ch, sev) := i in
      Bool.eqb (scoreOf c i =? 0)%float ((k =? 0)%nat && negb ch && negb sev)
      && Bool.eqb (scoreOf c i =? 1)%float ((k =? totalKeywords c)%nat && ch && sev))
    (scoreInputs c) = true.
Proof. destruct c; vm_compute; reflexivity. Qed.

(** X15: a rule score is zero exactly when no keyword of the classification
    occurs in the summary and neither the channel nor the severity is
    preferred, and one exactly when every keyword occurs and both are. *)
Theorem rule_score_extremes (ticket : Ticket) (c : Category) :
  ((calculateRuleBasedScore ticket c =? 0)%float = true
   <-> matchedKeywords ticket c = 0%nat
       /\ channelPreferred ticket c = false
       /\ severityPreferred ticket c = false)
  /\ ((calculateRuleBasedScore ticket c =? 1)%float = true
      <-> matchedKeywords ticket c = totalKeywords c
          /\ channelPreferred ticket c = true
          /\ severityPreferred ticket c = true).
Proof.
  rewrite calculateRuleBasedScore_scoreOf.
  pose proof (for_all_inputs c _ (scoreOf_extremes c) ticket) as H.
  unfold inputsOf in H |- *. cbv beta iota in H.
  apply andb_true_iff in H as [H0 H1]. apply Bool.eqb_prop in H0, H1.
  rewrite H0, H1, !andb_true_iff, !negb_true_iff, !Nat.eqb_eq. tauto.
Qed.

End Signals.
